(** * A shallow embedding of the agoraClient session controller,
    token provider and token endpoint.

    Sources embedded:
    - src/src/lib/agora-utils.ts  : agoraGetAppData, generateTokenFromBackend,
                                    generateTokenFromServer, validateAgoraToken
    - src/src/lib/agora-config.ts : AgoraClient (constructor, initClient,
                                    generateToken, join, leave, ...)
    - src/src/lib/agora-utils.ts  : generateUUID, getOptionsFromLocal,
                                    saveAgoraCredentials, loadAgoraCredentials
    - src/unnamed/part_001        : the POST and GET handlers of
                                    /api/agora/token
    - src/src/hooks/useAgoraAudience.ts : joinChannel, leaveChannel
    - src/src/app/page.tsx        : isValidAppId
    - src/unnamed/part_000        : the video page's query check

    Strings are Rocq [string]s whose characters are read as Latin-1 code
    units of a JavaScript string.  JavaScript numbers on the client side
    (HTTP status, uids) are integers ([Z]); numbers received by the token
    endpoint in a JSON body are rationals ([Q]), which covers every JSON
    number literal exactly.  External collaborators (fetch, the RTC engine,
    the signing primitive, the clock) are the fields of a [world] record:
    each call records an event in a trace and returns the world's answer. *)

From Stdlib Require Import String Ascii List ZArith Bool Lia.
From Stdlib Require QArith.
Import ListNotations.
Open Scope string_scope.

(* ------------------------------------------------------------------ *)
(** ** JavaScript string helpers *)

Module JsString.

(** WhiteSpace and LineTerminator code units below 256 (used by
    [String.prototype.trim] and by [parseInt]). *)
Definition is_js_space (c : ascii) : bool :=
  match nat_of_ascii c with
  | 9 | 10 | 11 | 12 | 13 | 32 | 160 => true
  | _ => false
  end.

Fixpoint trim_start (s : string) : string :=
  match s with
  | EmptyString => EmptyString
  | String c r => if is_js_space c then trim_start r else s
  end.

Fixpoint rev_string (s : string) : string :=
  match s with
  | EmptyString => EmptyString
  | String c r => rev_string r ++ String c EmptyString
  end.

(** [s.trim()] *)
Definition trim (s : string) : string :=
  rev_string (trim_start (rev_string (trim_start s))).

(** JavaScript truthiness of a string: only [""] is falsy. *)
Definition truthy (s : string) : bool :=
  negb (String.eqb s "").

(** [!s || s.trim() === ''] *)
Definition blank (s : string) : bool :=
  negb (truthy s) || String.eqb (trim s) "".

(** [a || b] on strings. *)
Definition or_else (s d : string) : string :=
  if truthy s then s else d.

(** [o || d] where [o] may be undefined. *)
Definition opt_or (o : option string) (d : string) : string :=
  match o with Some s => or_else s d | None => d end.

(** One character of the class [[a-f0-9]] under the [i] flag. *)
Definition is_hex_char (c : ascii) : bool :=
  let n := nat_of_ascii c in
  (Nat.leb 48 n && Nat.leb n 57) ||
  (Nat.leb 97 n && Nat.leb n 102) ||
  (Nat.leb 65 n && Nat.leb n 70).

Fixpoint all_chars (p : ascii -> bool) (s : string) : bool :=
  match s with
  | EmptyString => true
  | String c r => p c && all_chars p r
  end.

(** [/^[a-f0-9]{32}$/i.test(s)] *)
Definition app_id_pattern_test (s : string) : bool :=
  Nat.eqb (String.length s) 32 && all_chars is_hex_char s.

(** Decimal rendering of an integer, as [String(n)] does for a safe
    integer ([|n| < 2^53]); larger numbers are not modelled exactly, since
    JavaScript writes them with the shortest round-trip digits and, from
    [10^21] on, with an exponent. *)
Fixpoint digits_aux (fuel : nat) (n : Z) (acc : string) : string :=
  match fuel with
  | O => acc
  | S f =>
      let acc' := String (ascii_of_nat (48 + Z.to_nat (n mod 10))) acc in
      if Z.eqb (n / 10) 0 then acc' else digits_aux f (n / 10) acc'
  end.

Definition Z_to_dec (z : Z) : string :=
  let d := digits_aux (S (Z.to_nat (Z.log2 (Z.abs z)))) (Z.abs z) "" in
  if Z.ltb z 0 then "-" ++ d else d.

End JsString.

Import JsString.

(* ------------------------------------------------------------------ *)
(** ** Errors, outcomes and the effect monad *)

(** A thrown value, seen through [error as { code?: string; message?: string }]. *)
Record err := mk_err { e_code : option string; e_message : option string }.

(** [new Error(msg)] *)
Definition js_error (msg : string) : err := mk_err None (Some msg).

(** The [TypeError] raised by a property read on [undefined] or [null]. *)
Definition type_error : err :=
  js_error "Cannot read properties of undefined".

(** The [SyntaxError] raised by [response.json()] on a body that is not JSON. *)
Definition syntax_error : err :=
  js_error "Unexpected token in JSON".

Inductive outcome (A : Type) : Type :=
| Ok (a : A)
| Throw (e : err).
Arguments Ok {A} a.
Arguments Throw {A} e.

(* ------------------------------------------------------------------ *)
(** ** Requests, responses, engine events and the world *)

#[local] Set Warnings "-register-all".

(** A JSON value as sent in a request body. *)
Inductive jv :=
| JStr (s : string)
| JNum (z : Z)
| JArr (l : list jv).

Inductive request :=
| GET (path : string) (query : list (string * string))
| POST (url : string) (body : list (string * jv)).

(** The [data] object of a token-service answer. *)
Record data_obj := mk_data { d_token : option string; d_appid : option string }.

(** The fields of a token-service answer read by the client. *)
Record resp_obj := mk_resp {
  r_code : option Z;
  r_message : option string;
  r_error : option string;
  r_data : option data_obj;   (* None: undefined or null *)
  r_token : option string
}.

(** What [response.json()] meets: not JSON, [null], or an object. *)
Inductive body :=
| BInvalid
| BNull
| BObj (o : resp_obj).

Inductive fetch_outcome :=
| FReject (e : err)
| FResp (status : Z) (b : body).

(** [uid?: string | number] *)
Inductive uidv :=
| UStr (s : string)
| UNum (z : Z).

Inductive role := Publisher | Audience.

Definition role_str (r : role) : string :=
  match r with Publisher => "publisher" | Audience => "audience" end.

Inductive track_kind := Video | Audio.

Inductive event :=
| EvFetch (r : request)
| EvCreateClient (mode codec : string)
| EvOn (name : string)
| EvJoin (appId channel : string) (token : option string) (uid : option uidv)
| EvCreateTrack (k : track_kind)
| EvPublish
| EvPlay (k : track_kind)
| EvStop (k : track_kind)
| EvClose (k : track_kind)
| EvLeave.

(** The environment of one run: what each external call answers. *)
Record world := mk_world {
  w_fetch : request -> fetch_outcome;
  w_has_window : bool;                 (* typeof window !== 'undefined' *)
  w_local_appid : string;              (* getOptionsFromLocal().appid *)
  w_local_certificate : string;        (* getOptionsFromLocal().certificate *)
  w_url_encrypted_id : option string;  (* ?encryptedId= *)
  w_url_encrypted_secret : option string;
  w_base_url : string;                 (* BASE_URL *)
  w_uuid : string;                     (* generateUUID() *)
  w_engine_join : string -> string -> option string -> option uidv -> outcome Z;
  w_create_track : track_kind -> outcome unit;
  w_publish : outcome unit;
  w_has_local_player : bool;
  w_stop : track_kind -> outcome unit;
  w_close : track_kind -> outcome unit;
  w_engine_leave : outcome unit
}.

(* ------------------------------------------------------------------ *)
(** ** The session state of an [AgoraClient] *)

Record AgoraConfig := mk_config {
  appId : string;
  channel : string;
  token : option string;
  uid : option uidv;
  appCertificate : option string;
  mode : option string;
  codec : option string
}.

(** An [IAgoraRTCClient], remembered by the options it was created with. *)
Record client_handle := Handle { h_mode : string; h_codec : string }.

Record state := mk_state {
  s_config : AgoraConfig;
  s_client : option client_handle;
  s_video : bool;     (* localVideoTrack !== null *)
  s_audio : bool;     (* localAudioTrack !== null *)
  s_pub : bool;       (* isPublisher *)
  s_trace : list event
}.

Definition set_client (c : option client_handle) (s : state) : state :=
  mk_state (s_config s) c (s_video s) (s_audio s) (s_pub s) (s_trace s).
Definition set_video (b : bool) (s : state) : state :=
  mk_state (s_config s) (s_client s) b (s_audio s) (s_pub s) (s_trace s).
Definition set_audio (b : bool) (s : state) : state :=
  mk_state (s_config s) (s_client s) (s_video s) b (s_pub s) (s_trace s).
Definition set_pub (b : bool) (s : state) : state :=
  mk_state (s_config s) (s_client s) (s_video s) (s_audio s) b (s_trace s).
Definition add_event (ev : event) (s : state) : state :=
  mk_state (s_config s) (s_client s) (s_video s) (s_audio s) (s_pub s)
    (s_trace s ++ [ev]).

(** [new AgoraClient(config)]: [{ mode: 'rtc', codec: 'vp8', ...config }]. *)
Definition new_AgoraClient (config : AgoraConfig) : state :=
  let merged :=
    mk_config (appId config) (channel config) (token config) (uid config)
      (appCertificate config)
      (match mode config with Some m => Some m | None => Some "rtc" end)
      (match codec config with Some c => Some c | None => Some "vp8" end) in
  mk_state merged None false false false [].

(** The async methods run in a state and error monad. *)
Definition M (A : Type) : Type := state -> outcome A * state.

Definition ret {A} (a : A) : M A := fun s => (Ok a, s).
Definition bind {A B} (m : M A) (k : A -> M B) : M B :=
  fun s => match m s with
           | (Ok a, s') => k a s'
           | (Throw e, s') => (Throw e, s')
           end.
Definition throw {A} (e : err) : M A := fun s => (Throw e, s).
(** [try { m } catch (e) { h(e) }] *)
Definition try_catch {A} (m : M A) (h : err -> M A) : M A :=
  fun s => match m s with
           | (Throw e, s') => h e s'
           | r => r
           end.
Definition get : M state := fun s => (Ok s, s).
Definition modify (f : state -> state) : M unit := fun s => (Ok tt, f s).
Definition emit (ev : event) : M unit := modify (add_event ev).

Notation "x <- m ;; k" := (bind m (fun x => k))
  (at level 61, m at next level, right associativity).
Notation "' pat <- m ;; k" := (bind m (fun x => match x with pat => k end))
  (at level 61, pat pattern, m at next level, right associativity).
Notation "m ;;; k" := (bind m (fun _ => k))
  (at level 61, right associativity).

(** [catch (error) { console.error(...); throw error; }] *)
Definition rethrow {A} (e : err) : M A := throw e.

(* ------------------------------------------------------------------ *)
(** ** Token provider (agora-utils.ts) *)

Section TokenProvider.
Variable w : world.

Definition fetch (r : request) : M (Z * body) :=
  emit (EvFetch r) ;;;
  match w_fetch w r with
  | FReject e => throw e
  | FResp status b => ret (status, b)
  end.

(** [await response.json()] *)
Definition json (b : body) : M (option resp_obj) :=
  match b with
  | BInvalid => throw syntax_error
  | BNull => ret None
  | BObj o => ret (Some o)
  end.

(** A property read on a value that may be [null]. *)
Definition deref {A} (o : option A) : M A :=
  match o with
  | Some a => ret a
  | None => throw type_error
  end.

Definition response_ok (status : Z) : bool :=
  Z.leb 200 status && Z.leb status 299.

Definition code_is_zero (c : option Z) : bool :=
  match c with Some z => Z.eqb z 0 | None => false end.

Definition uid_to_string (u : uidv) : string :=
  match u with UStr s => s | UNum z => Z_to_dec z end.

(** A uid that is a string or a safe integer ([Number.isSafeInteger]). *)
Definition uid_safe (u : uidv) : bool :=
  match u with UStr _ => true | UNum z => Z.ltb (Z.abs z) (2 ^ 53) end.

Definition uid_json (u : uidv) : jv :=
  match u with UStr s => JStr s | UNum z => JNum z end.

(** [if (!response.ok) { const errorData = await response.json();
       throw new Error(errorData.error || `HTTP ${response.status}`); }] *)
Definition http_error {A} (status : Z) (b : body) : M A :=
  errorData <- json b ;;
  ed <- deref errorData ;;
  throw (js_error (opt_or (r_error ed) ("HTTP " ++ Z_to_dec status))).

Definition server_request (appId appCertificate channelName : string)
    (uid : uidv) (r : role) : request :=
  GET "/api/agora/token"
    [("appId", appId); ("appCertificate", appCertificate);
     ("channel", channelName); ("uid", uid_to_string uid);
     ("role", role_str r)].

Definition generateTokenFromServer (appId appCertificate channelName : string)
    (uid : uidv) (r : role) : M (option string) :=
  try_catch
    ('(status, b) <- fetch (server_request appId appCertificate channelName uid r) ;;
     if negb (response_ok status) then http_error status b
     else
       data <- json b ;;
       d <- deref data ;;
       if negb (code_is_zero (r_code d))
       then throw (js_error (opt_or (r_message d) "Token generation failed"))
       else dd <- deref (r_data d) ;; ret (d_token dd))
    rethrow.

Definition backend_request (appId appCertificate channelName : string)
    (uid : uidv) (r : role) (expireTimeInSeconds : Z) : request :=
  POST "/api/agora/token"
    [("appId", JStr appId); ("appCertificate", JStr appCertificate);
     ("channelName", JStr channelName); ("uid", uid_json uid);
     ("role", JStr (role_str r));
     ("expireTimeInSeconds", JNum expireTimeInSeconds)].

Definition generateTokenFromBackend (appId appCertificate channelName : string)
    (uid : uidv) (r : role) : M (option string) :=
  try_catch
    ('(status, b) <- fetch (backend_request appId appCertificate channelName uid r 3600) ;;
     if negb (response_ok status) then http_error status b
     else
       data <- json b ;;
       d <- deref data ;;
       ret (r_token d))
    rethrow.

Definition opt_truthy (o : option string) : bool :=
  match o with Some s => truthy s | None => false end.

(** [getEncryptFromUrl()] *)
Definition getEncryptFromUrl : option string * option string :=
  if w_has_window w
  then (w_url_encrypted_id w, w_url_encrypted_secret w)
  else (None, None).

Definition encrypted_request (channel : string) (encryptedId encryptedSecret : string)
    : request :=
  POST (w_base_url w ++ "/v1/webdemo/encrypted/token")
    [("channelName", JStr channel); ("encryptedId", JStr encryptedId);
     ("encryptedSecret", JStr encryptedSecret); ("traceId", JStr (w_uuid w));
     ("src", JStr "webdemo")].

Definition direct_request (uid : uidv) (channel : string) : request :=
  POST (w_base_url w ++ "/v2/token/generate")
    [("appId", JStr (w_local_appid w));
     ("appCertificate", JStr (w_local_certificate w));
     ("channelName", JStr channel); ("expire", JNum 7200); ("src", JStr "web");
     ("types", JArr [JNum 1; JNum 2]); ("uid", uid_json uid)].

(** The request [agoraGetAppData] sends, if any. *)
Definition demo_request (uid : uidv) (channel : string) : option request :=
  match getEncryptFromUrl with
  | (Some eid, Some esec) =>
      if truthy eid && truthy esec then Some (encrypted_request channel eid esec)
      else if truthy (w_local_certificate w) then Some (direct_request uid channel)
      else None
  | _ =>
      if truthy (w_local_certificate w) then Some (direct_request uid channel)
      else None
  end.

(** [agoraGetAppData({ uid, channel, appid })].  The write-back of
    [respData.appid] into [config] is not modelled: the caller passes a
    fresh object literal and never reads it again. *)
Definition agoraGetAppData (uid : uidv) (channel : string) (appid : string)
    : M (option string) :=
  match demo_request uid channel with
  | None => ret None
  | Some req =>
      try_catch
        ('(status, b) <- fetch req ;;
         resp <- json b ;;
         r <- deref resp ;;
         if negb (code_is_zero (r_code r))
         then throw (js_error (opt_or (r_message r)
                "Generate token error, please check your appid and appcertificate parameters"))
         else
           let tok := match r_data r with Some d => d_token d | None => None end in
           ret (if opt_truthy tok then tok else None))
        rethrow
  end.

End TokenProvider.

(** A JavaScript value, for the [typeof] and truthiness tests of
    [validateAgoraToken]. *)
Inductive jsval :=
| JUndefined
| JNull
| JBool (b : bool)
| JNumber (z : Z)
| JString (s : string)
| JObject.

Definition js_truthy (v : jsval) : bool :=
  match v with
  | JUndefined | JNull => false
  | JBool b => b
  | JNumber z => negb (Z.eqb z 0)
  | JString s => truthy s
  | JObject => true
  end.

(** [/^00[67]/.test(s)] *)
Definition version_pattern_test (s : string) : bool :=
  match s with
  | String c0 (String c1 (String c2 _)) =>
      Ascii.eqb c0 "0" && Ascii.eqb c1 "0" && (Ascii.eqb c2 "6" || Ascii.eqb c2 "7")
  | _ => false
  end.

Definition validateAgoraToken (v : jsval) : bool :=
  if negb (js_truthy v) then false
  else match v with
       | JString s =>
           if negb (version_pattern_test s) then false
           else Nat.ltb 50 (String.length s)
       | _ => false   (* typeof token !== 'string' *)
       end.

(* ------------------------------------------------------------------ *)
(** ** The session controller (agora-config.ts) *)

Section SessionController.
Variable w : world.

Definition lift {A} (o : outcome A) : M A := fun s => (o, s).

(** [this.config.uid || 0] *)
Definition uid_or_zero (u : option uidv) : uidv :=
  match u with
  | Some (UStr s) => if truthy s then UStr s else UNum 0
  | Some (UNum z) => UNum z
  | None => UNum 0
  end.

(** [this.config.uid || null] *)
Definition uid_or_null (u : option uidv) : option uidv :=
  match u with
  | Some (UStr s) => if truthy s then Some (UStr s) else None
  | Some (UNum z) => if Z.eqb z 0 then None else Some (UNum z)
  | None => None
  end.

(** The certificate when [if (this.config.appCertificate)] holds. *)
Definition present_cert (o : option string) : option string :=
  match o with
  | Some c => if truthy c then Some c else None
  | None => None
  end.

Definition no_token_error : err :=
  js_error "No token generation method available. Please provide App Certificate.".

Definition generateToken (r : role) : M (option string) :=
  s <- get ;;
  let config := s_config s in
  try_catch
    (match present_cert (appCertificate config) with
     | Some cert =>
         try_catch
           (generateTokenFromServer w (appId config) cert (channel config)
              (uid_or_zero (uid config)) r)
           (fun _ =>
              generateTokenFromBackend w (appId config) cert (channel config)
                (uid_or_zero (uid config)) r)
     | None =>
         serverToken <- agoraGetAppData w (uid_or_zero (uid config))
                          (channel config) (appId config) ;;
         if opt_truthy serverToken then ret serverToken
         else throw no_token_error
     end)
    rethrow.

(** The handler bodies registered here run on engine events, outside the
    calls modelled below; only their registration is recorded. *)
Definition setupEventListeners : M unit :=
  s <- get ;;
  match s_client s with
  | None => ret tt
  | Some _ =>
      emit (EvOn "user-published") ;;; emit (EvOn "user-unpublished") ;;;
      emit (EvOn "user-left") ;;; emit (EvOn "connection-state-change")
  end.

Definition initClient : M unit :=
  if negb (w_has_window w) then ret tt
  else
    emit (EvCreateClient "rtc" "vp8") ;;;
    modify (set_client (Some (Handle "rtc" "vp8"))) ;;;
    setupEventListeners.

Definition create_track (k : track_kind) : M unit :=
  emit (EvCreateTrack k) ;;; lift (w_create_track w k).

Definition createAndPublishTracks : M unit :=
  s <- get ;;
  if (match s_client s with None => true | Some _ => false end) || negb (s_pub s)
  then ret tt
  else
    try_catch
      (create_track Audio ;;; modify (set_audio true) ;;;
       create_track Video ;;; modify (set_video true) ;;;
       emit EvPublish ;;; lift (w_publish w) ;;;
       (if w_has_local_player w then emit (EvPlay Video) else ret tt))
      rethrow.

Definition token_failure_error : err :=
  js_error "Token generation failed. Please check your App Certificate or server configuration.".

Definition code_is (c : option string) (k : string) : bool :=
  match c with Some x => String.eqb x k | None => false end.

(** The message of the error thrown by [join]'s [catch] block. *)
Definition join_error_message (e : err) : string :=
  let c := e_code e in
  if code_is c "CAN_NOT_GET_GATEWAY_SERVER" then
    "Invalid App ID or network connection issue. Please verify your App ID is correct."
  else if code_is c "INVALID_TOKEN" then
    "Invalid token. Please check your token or generate a new one."
  else if code_is c "TOKEN_EXPIRED" then
    "Token has expired. Please generate a new token."
  else if code_is c "INVALID_VENDOR_KEY" then
    "Invalid App ID. Please check your App ID from Agora Console."
  else if code_is c "DYNAMIC_KEY_TIMEOUT" then
    "Token has expired. Please generate a new token."
  else
    "Failed to join channel: " ++ opt_or (e_message e) (opt_or c "Unknown error").

Definition app_id_required_error : err :=
  js_error "App ID is required and cannot be empty".
Definition channel_required_error : err :=
  js_error "Channel name is required and cannot be empty".
Definition app_id_format_error : err :=
  js_error "Invalid App ID format. App ID should be a 32-character hexadecimal string.".

(** [private async join(role)].  The [validateAgoraToken] check on a
    supplied token only logs a warning and is not modelled. *)
Definition join (r : role) : M unit :=
  s <- get ;;
  let config := s_config s in
  if blank (appId config) then throw app_id_required_error
  else if blank (channel config) then throw channel_required_error
  else if negb (app_id_pattern_test (trim (appId config))) then throw app_id_format_error
  else
    (match s_client s with None => initClient | Some _ => ret tt end) ;;;
    s1 <- get ;;
    match s_client s1 with
    | None => throw (js_error "Failed to initialize Agora client")
    | Some _ =>
        try_catch
          (tok <- (if opt_truthy (token config) then ret (token config)
                   else try_catch (generateToken r) (fun _ => throw token_failure_error)) ;;
           emit (EvJoin (trim (appId config)) (trim (channel config)) tok
                   (uid_or_null (uid config))) ;;;
           _ <- lift (w_engine_join w (trim (appId config)) (trim (channel config)) tok
                        (uid_or_null (uid config))) ;;
           s2 <- get ;;
           if s_pub s2 then createAndPublishTracks else ret tt)
          (fun e => throw (js_error (join_error_message e)))
    end.

Definition joinAsAudience : M unit :=
  modify (set_pub false) ;;; join Audience.

Definition joinAsPublisher : M unit :=
  modify (set_pub true) ;;; join Publisher.

(** [track.stop(); track.close();] *)
Definition stop_and_close (k : track_kind) : M unit :=
  emit (EvStop k) ;;; lift (w_stop w k) ;;;
  emit (EvClose k) ;;; lift (w_close w k).

Definition leave : M unit :=
  s <- get ;;
  match s_client s with
  | None => ret tt
  | Some _ =>
      try_catch
        ((s1 <- get ;;
          if s_video s1 then stop_and_close Video ;;; modify (set_video false)
          else ret tt) ;;;
         (s2 <- get ;;
          if s_audio s2 then stop_and_close Audio ;;; modify (set_audio false)
          else ret tt) ;;;
         emit EvLeave ;;; lift (w_engine_leave w) ;;;
         modify (set_pub false))
        rethrow
  end.

End SessionController.

(* ------------------------------------------------------------------ *)
(** ** The token endpoint: [POST /api/agora/token] (src/unnamed/part_001) *)

Module TokenEndpoint.
Import QArith.

(** [uid: string | number] as received in the JSON body. *)
Inductive body_uid :=
| BUStr (s : string)
| BUNum (q : Q).

(** The destructured fields of [await request.json()]; [None] is undefined. *)
Record TokenRequest := mk_request {
  tr_appId : option string;
  tr_appCertificate : option string;
  tr_channelName : option string;
  tr_uid : option body_uid;
  tr_role : option string;
  tr_expireTimeInSeconds : option Q
}.

Inductive RtcRole := PUBLISHER | SUBSCRIBER.

(** A thrown value: an [Error] with its message, or anything else. *)
Inductive thrown :=
| ThrownError (msg : string)
| ThrownOther.

(** [error instanceof Error ? error.message : 'Unknown error'] *)
Definition details (t : thrown) : string :=
  match t with ThrownError m => m | ThrownOther => "Unknown error" end.

(** The signing primitive [RtcTokenBuilder.buildTokenWithUid]: a token, or
    the value it throws. *)
Definition signer : Type :=
  string -> string -> string -> Q -> RtcRole -> Q -> Q -> string + thrown.

Inductive response_body :=
| RError (error : string)
| RFailure (error details : string)
| RToken (token : string) (uid : Q) (channel : string) (role : string)
         (expireTime : Q) (generatedAt : Z).

Record response := mk_response { status : Z; rbody : response_body }.

Definition digit_value (c : ascii) : option Z :=
  let n := Z.of_nat (nat_of_ascii c) in
  if Z.leb 48 n && Z.leb n 57 then Some (n - 48)%Z
  else if Z.leb 97 n && Z.leb n 122 then Some (n - 87)%Z
  else if Z.leb 65 n && Z.leb n 90 then Some (n - 55)%Z
  else None.

(** The longest prefix of radix digits, read as a number; [None] if empty. *)
Fixpoint digits_prefix (radix : Z) (s : string) (acc : option Z) : option Z :=
  match s with
  | EmptyString => acc
  | String c r =>
      match digit_value c with
      | Some d =>
          if Z.ltb d radix
          then digits_prefix radix r
                 (Some (match acc with Some a => a * radix + d | None => d end)%Z)
          else acc
      | None => acc
      end
  end.

(** [parseInt(s)] with no radix; [None] is [NaN]. *)
Definition parseInt (s : string) : option Z :=
  let s1 := trim_start s in
  let '(sign, s2) :=
    match s1 with
    | String c r =>
        if Ascii.eqb c "-" then ((-1)%Z, r)
        else if Ascii.eqb c "+" then (1%Z, r) else (1%Z, s1)
    | EmptyString => (1%Z, s1)
    end in
  let '(radix, s3) :=
    match s2 with
    | String c0 (String c1 r) =>
        if Ascii.eqb c0 "0" && (Ascii.eqb c1 "x" || Ascii.eqb c1 "X")
        then (16%Z, r) else (10%Z, s2)
    | _ => (10%Z, s2)
    end in
  option_map (Z.mul sign) (digits_prefix radix s3 None).

(** [typeof uid === 'string' ? parseInt(uid) || 0 : uid || 0] *)
Definition uid_num (u : option body_uid) : Q :=
  match u with
  | Some (BUStr s) =>
      match parseInt s with
      | Some z => if Z.eqb z 0 then 0 else inject_Z z
      | None => 0
      end
  | Some (BUNum q) => if Qeq_bool q 0 then 0 else q
  | None => 0
  end.

Definition fields_required : string :=
  "App ID, App Certificate, and Channel Name are required".
Definition app_id_format : string :=
  "Invalid App ID format. App ID should be a 32-character hexadecimal string.".

(** [export async function POST(request)], with the clock [Date.now()] as
    [now_ms] and the parsed body, or what [request.json()] threw. *)
Definition POST (sign : signer) (now_ms : Z) (req : thrown + TokenRequest)
    : response :=
  match req with
  | inl ex => mk_response 500 (RFailure "Failed to generate token" (details ex))
  | inr b =>
      let role := match tr_role b with Some r => r | None => "audience" end in
      let expireTimeInSeconds :=
        match tr_expireTimeInSeconds b with Some e => e | None => 3600 end in
      match tr_appId b, tr_appCertificate b, tr_channelName b with
      | Some appId, Some appCertificate, Some channelName =>
          if negb (truthy appId && truthy appCertificate && truthy channelName)
          then mk_response 400 (RError fields_required)
          else if negb (app_id_pattern_test appId)
          then mk_response 400 (RError app_id_format)
          else
            let currentTimestamp := (now_ms / 1000)%Z in
            let privilegeExpiredTs := inject_Z currentTimestamp + expireTimeInSeconds in
            let agoraRole := if String.eqb role "publisher" then PUBLISHER else SUBSCRIBER in
            let uidNum := uid_num (tr_uid b) in
            match sign appId appCertificate channelName uidNum agoraRole
                       privilegeExpiredTs privilegeExpiredTs with
            | inl tok =>
                mk_response 200
                  (RToken tok uidNum channelName role privilegeExpiredTs currentTimestamp)
            | inr ex =>
                mk_response 500 (RFailure "Failed to generate token" (details ex))
            end
      | _, _, _ => mk_response 400 (RError fields_required)
      end
  end.

(** A signing primitive that always returns the same token. *)
Definition sample_signer : signer := fun _ _ _ _ _ _ _ => inl "007signed".

(** A well-formed body for channel [demo] with the given uid. *)
Definition sample_body (u : option body_uid) : TokenRequest :=
  mk_request (Some "0123456789abcdef0123456789ABCDEF") (Some "cert") (Some "demo")
    u None None.

End TokenEndpoint.

(* ------------------------------------------------------------------ *)
(** ** Vocabulary of the specification and concrete environments *)

(** [n] copies of the character ["x"]. *)
Definition xs (n : nat) : string := string_of_list_ascii (List.repeat "x"%char n).

(** The engine codes with a message of their own in [join]'s catch block. *)
Definition join_error_codes : list string :=
  ["CAN_NOT_GET_GATEWAY_SERVER"; "INVALID_TOKEN"; "TOKEN_EXPIRED";
   "INVALID_VENDOR_KEY"; "DYNAMIC_KEY_TIMEOUT"].

(** The client handle, when there is one, was created as [rtc]/[vp8]. *)
Definition client_is_rtc_vp8 (s : state) : Prop :=
  forall h, s_client s = Some h -> h = Handle "rtc" "vp8".

Definition is_ok {A} (o : outcome A) : bool :=
  match o with Ok _ => true | Throw _ => false end.

(** Every stop/close [leave] performs on the tracks it holds succeeds. *)
Definition teardown_ok (w : world) (s : state) : bool :=
  (negb (s_video s) || (is_ok (w_stop w Video) && is_ok (w_close w Video))) &&
  (negb (s_audio s) || (is_ok (w_stop w Audio) && is_ok (w_close w Audio))).

(** The engine calls [leave] makes for the local tracks it holds. *)
Definition teardown_events (s : state) : list event :=
  (if s_video s then [EvStop Video; EvClose Video] else []) ++
  (if s_audio s then [EvStop Audio; EvClose Audio] else []).

(** The track steps of [leave], in order, each with the engine's answer. *)
Definition teardown_steps (w : world) (s : state) : list (event * outcome unit) :=
  (if s_video s then [(EvStop Video, w_stop w Video); (EvClose Video, w_close w Video)]
   else []) ++
  (if s_audio s then [(EvStop Audio, w_stop w Audio); (EvClose Audio, w_close w Audio)]
   else []).

(** The first step that throws: its error, and the engine calls made up to
    and including it. *)
Fixpoint first_failure (steps : list (event * outcome unit)) : option (err * list event) :=
  match steps with
  | [] => None
  | (ev, o) :: rest =>
      match o with
      | Throw e => Some (e, [ev])
      | Ok _ =>
          match first_failure rest with
          | Some (e, evs) => Some (e, ev :: evs)
          | None => None
          end
      end
  end.

Definition err_of {A} (o : outcome A) : option err :=
  match o with Ok _ => None | Throw e => Some e end.

(** The error the RTC engine throws on the call an event records, if any. *)
Definition engine_error (w : world) (ev : event) : option err :=
  match ev with
  | EvJoin a c t u => err_of (w_engine_join w a c t u)
  | EvCreateTrack k => err_of (w_create_track w k)
  | EvPublish => err_of (w_publish w)
  | _ => None
  end.

(** [m] only extends the trace, and when one of the engine calls it makes
    throws [e], [m] throws [f e]. *)
Definition surfaces (w : world) {A} (f : err -> err) (m : M A) : Prop :=
  forall s, exists tail,
    s_trace (snd (m s)) = (s_trace s ++ tail)%list /\
    forall ev e, In ev tail -> engine_error w ev = Some e -> fst (m s) = Throw (f e).

(** The trace extends [tr0] by calls none of which is an engine call that
    throws. *)
Definition no_engine_error (w : world) (tr0 : list event) (s : state) : Prop :=
  exists tail, s_trace s = (tr0 ++ tail)%list /\
    forall ev, In ev tail -> engine_error w ev = None.

Definition hex_app_id : string := "0123456789abcdef0123456789ABCDEF".

Definition network_error : err := js_error "Failed to fetch".

(** A token service answer [{ token }] / [{ code: 0, data: { token } }]. *)
Definition token_answer (t : string) : fetch_outcome :=
  FResp 200 (BObj (mk_resp (Some 0%Z) None None (Some (mk_data (Some t) None)) (Some t))).

(** A browser in which the GET endpoint is unreachable, the POST endpoint
    answers ["T1"], and every engine call succeeds. *)
Definition example_world : world :=
  mk_world
    (fun r => match r with
              | GET _ _ => FReject network_error
              | POST _ _ => token_answer "T1"
              end)
    true "" "" None None "https://webdemo-for-agora-io.agora.io" "uuid"
    (fun _ _ _ _ => Ok 1%Z) (fun _ => Ok tt) (Ok tt) true
    (fun _ => Ok tt) (fun _ => Ok tt) (Ok tt).

(** The same browser with no token service reachable at all. *)
Definition offline_world : world :=
  mk_world (fun _ => FReject network_error)
    true "" "" None None "https://webdemo-for-agora-io.agora.io" "uuid"
    (fun _ _ _ _ => Ok 1%Z) (fun _ => Ok tt) (Ok tt) true
    (fun _ => Ok tt) (fun _ => Ok tt) (Ok tt).

(** A browser whose camera track fails to stop. *)
Definition stuck_camera_world : world :=
  mk_world (fun _ => FReject network_error)
    true "" "" None None "https://webdemo-for-agora-io.agora.io" "uuid"
    (fun _ _ _ _ => Ok 1%Z) (fun _ => Ok tt) (Ok tt) true
    (fun k => match k with Video => Throw (js_error "stop failed") | Audio => Ok tt end)
    (fun _ => Ok tt) (Ok tt).

(** An engine that rejects every token. *)
Definition bad_token_world : world :=
  mk_world (fun _ => FReject network_error)
    true "" "" None None "https://webdemo-for-agora-io.agora.io" "uuid"
    (fun _ _ _ _ => Throw (mk_err (Some "INVALID_TOKEN") (Some "invalid token")))
    (fun _ => Ok tt) (Ok tt) true
    (fun _ => Ok tt) (fun _ => Ok tt) (Ok tt).

Definition example_config (tok cert : option string) : AgoraConfig :=
  mk_config hex_app_id "demo" tok None cert None None.

(** A publisher session holding a client and both local tracks. *)
Definition publishing_state : state :=
  mk_state (example_config None (Some "cert")) (Some (Handle "rtc" "vp8"))
    true true true [].

(** A session whose RTC client already exists. *)
Definition ready_state (config : AgoraConfig) : state :=
  mk_state config (Some (Handle "rtc" "vp8")) false false false [].

(** The two calls [generateToken] makes to the signing endpoint when the
    configuration carries a certificate, with the arguments it passes. *)
Definition primary_request (s : state) (r : role) (cert : string) : request :=
  server_request (appId (s_config s)) cert (channel (s_config s))
    (uid_or_zero (uid (s_config s))) r.
Definition secondary_request (s : state) (r : role) (cert : string) : request :=
  backend_request (appId (s_config s)) cert (channel (s_config s))
    (uid_or_zero (uid (s_config s))) r 3600.
Definition primary_call (w : world) (s : state) (r : role) (cert : string)
    : M (option string) :=
  generateTokenFromServer w (appId (s_config s)) cert (channel (s_config s))
    (uid_or_zero (uid (s_config s))) r.
Definition secondary_call (w : world) (s : state) (r : role) (cert : string)
    : M (option string) :=
  generateTokenFromBackend w (appId (s_config s)) cert (channel (s_config s))
    (uid_or_zero (uid (s_config s))) r.
Definition demo_call (w : world) (s : state) : M (option string) :=
  agoraGetAppData w (uid_or_zero (uid (s_config s))) (channel (s_config s))
    (appId (s_config s)).

(** Both signing endpoints answer, the GET one with ["T1"] and the POST
    one with ["T2"]. *)
Definition both_endpoints_world : world :=
  mk_world
    (fun r => match r with
              | GET _ _ => token_answer "T1"
              | POST _ _ => token_answer "T2"
              end)
    true "" "" None None "https://webdemo-for-agora-io.agora.io" "uuid"
    (fun _ _ _ _ => Ok 1%Z) (fun _ => Ok tt) (Ok tt) true
    (fun _ => Ok tt) (fun _ => Ok tt) (Ok tt).

(** The same-origin signing endpoint is down, while the vendor demo server
    and a cached certificate would give the token ["D1"]. *)
Definition endpoints_down_world : world :=
  mk_world
    (fun r => match r with
              | GET _ _ => FReject network_error
              | POST u _ =>
                  if String.eqb u "/api/agora/token" then FReject network_error
                  else token_answer "D1"
              end)
    true "" "localcert" None None "https://webdemo-for-agora-io.agora.io" "uuid"
    (fun _ _ _ _ => Ok 1%Z) (fun _ => Ok tt) (Ok tt) true
    (fun _ => Ok tt) (fun _ => Ok tt) (Ok tt).

(* ------------------------------------------------------------------ *)
(** ** Query strings and parsed JSON objects *)

(** [URLSearchParams.prototype.get(k)]: the first value under [k], or
    [null]. *)
Fixpoint lookup_first {A} (k : string) (l : list (string * A)) : option A :=
  match l with
  | [] => None
  | (k', v) :: r => if String.eqb k' k then Some v else lookup_first k r
  end.

(** A member of the object built by [JSON.parse]: the last member named
    [k] wins. *)
Fixpoint lookup_last {A} (k : string) (l : list (string * A)) : option A :=
  match l with
  | [] => None
  | (k', v) :: r =>
      match lookup_last k r with
      | Some x => Some x
      | None => if String.eqb k' k then Some v else None
      end
  end.

(* ------------------------------------------------------------------ *)
(** ** The token endpoint: [GET /api/agora/token] (src/unnamed/part_001) *)

Module TokenEndpointGet.
Import QArith TokenEndpoint.

(** The JSON objects the GET handler answers with. *)
Inductive get_body :=
| GError (error : string)                   (* { error } *)
| GToken (token appid : string)             (* { code: 0, data: { token, appid } } *)
| GFailure (message error : string).        (* { code: 1, message, error } *)

Record get_response := mk_get_response { g_status : Z; g_body : get_body }.

(** [parseInt(uid) || 0]: [NaN] and [0] give [0]. *)
Definition uid_or_zero_num (uid : string) : Z :=
  match parseInt uid with
  | Some z => if Z.eqb z 0 then 0%Z else z
  | None => 0%Z
  end.

(** [export async function GET(request)], with [searchParams] as the
    decoded query and the clock [Date.now()] as [now_ms]. *)
Definition GET (sign : signer) (now_ms : Z) (query : list (string * string))
    : get_response :=
  let channelName := lookup_first "channel" query in
  let uid := opt_or (lookup_first "uid" query) "0" in
  let role := opt_or (lookup_first "role" query) "audience" in
  let appId := lookup_first "appId" query in
  let appCertificate := lookup_first "appCertificate" query in
  match appId, appCertificate, channelName with
  | Some appId, Some appCertificate, Some channelName =>
      if negb (truthy appId && truthy appCertificate && truthy channelName)
      then mk_get_response 400 (GError fields_required)
      else if negb (app_id_pattern_test appId)
      then mk_get_response 400 (GError app_id_format)
      else
        let currentTimestamp := (now_ms / 1000)%Z in
        let privilegeExpiredTs := (currentTimestamp + 3600)%Z in
        let agoraRole := if String.eqb role "publisher" then PUBLISHER else SUBSCRIBER in
        let uidNum := uid_or_zero_num uid in
        match sign appId appCertificate channelName (inject_Z uidNum) agoraRole
                   (inject_Z privilegeExpiredTs) (inject_Z privilegeExpiredTs) with
        | inl tok => mk_get_response 200 (GToken tok appId)
        | inr ex =>
            mk_get_response 500 (GFailure "Failed to generate token" (details ex))
        end
  | _, _, _ => mk_get_response 400 (GError fields_required)
  end.

End TokenEndpointGet.

(* ------------------------------------------------------------------ *)
(** ** The client and the endpoint together *)

Module TokenRoute.
Import QArith.

(** The members of the POST body that [request.json()] yields, for the
    field types of [TokenRequest]; [None] when a member has another type. *)
Definition decode_str (o : option jv) : option (option string) :=
  match o with
  | None => Some None
  | Some (JStr s) => Some (Some s)
  | Some _ => None
  end.

Definition decode_uid (o : option jv) : option (option TokenEndpoint.body_uid) :=
  match o with
  | None => Some None
  | Some (JStr s) => Some (Some (TokenEndpoint.BUStr s))
  | Some (JNum z) => Some (Some (TokenEndpoint.BUNum (inject_Z z)))
  | Some (JArr _) => None
  end.

Definition decode_num (o : option jv) : option (option Q) :=
  match o with
  | None => Some None
  | Some (JNum z) => Some (Some (inject_Z z))
  | Some _ => None
  end.

Definition decode_post_body (b : list (string * jv))
    : option TokenEndpoint.TokenRequest :=
  match decode_str (lookup_last "appId" b), decode_str (lookup_last "appCertificate" b),
        decode_str (lookup_last "channelName" b), decode_uid (lookup_last "uid" b),
        decode_str (lookup_last "role" b),
        decode_num (lookup_last "expireTimeInSeconds" b) with
  | Some a, Some c, Some ch, Some u, Some r, Some e =>
      Some (TokenEndpoint.mk_request a c ch u r e)
  | _, _, _, _, _, _ => None
  end.

(** What the client's [response.ok], [response.status] and
    [response.json()] see of a GET answer. *)
Definition get_to_client (r : TokenEndpointGet.get_response) : fetch_outcome :=
  FResp (TokenEndpointGet.g_status r)
    (BObj (match TokenEndpointGet.g_body r with
           | TokenEndpointGet.GError e => mk_resp None None (Some e) None None
           | TokenEndpointGet.GToken t a =>
               mk_resp (Some 0%Z) None None (Some (mk_data (Some t) (Some a))) None
           | TokenEndpointGet.GFailure m e => mk_resp (Some 1%Z) (Some m) (Some e) None None
           end)).

(** The same for a POST answer; [details] is not a field the client reads. *)
Definition post_to_client (r : TokenEndpoint.response) : fetch_outcome :=
  FResp (TokenEndpoint.status r)
    (BObj (match TokenEndpoint.rbody r with
           | TokenEndpoint.RError e => mk_resp None None (Some e) None None
           | TokenEndpoint.RFailure e _ => mk_resp None None (Some e) None None
           | TokenEndpoint.RToken t _ _ _ _ _ => mk_resp None None None None (Some t)
           end)).

(** The browser [w] in which the same-origin path [/api/agora/token] is
    served by this repository's handlers, with the signing primitive [sign]
    and the server clock [now_ms]; every other request, and a POST body
    whose members the handler's fields cannot hold, is answered by [w]. *)
Definition with_token_route (sign : TokenEndpoint.signer) (now_ms : Z) (w : world)
    : world :=
  mk_world
    (fun req =>
       match req with
       | GET p q =>
           if String.eqb p "/api/agora/token"
           then get_to_client (TokenEndpointGet.GET sign now_ms q)
           else w_fetch w req
       | POST u b =>
           if String.eqb u "/api/agora/token"
           then match decode_post_body b with
                | Some tr => post_to_client (TokenEndpoint.POST sign now_ms (inr tr))
                | None => w_fetch w req
                end
           else w_fetch w req
       end)
    (w_has_window w) (w_local_appid w) (w_local_certificate w)
    (w_url_encrypted_id w) (w_url_encrypted_secret w) (w_base_url w) (w_uuid w)
    (w_engine_join w) (w_create_track w) (w_publish w) (w_has_local_player w)
    (w_stop w) (w_close w) (w_engine_leave w).

(** The [RtcRole] a client role maps to on the server. *)
Definition rtc_role (r : role) : TokenEndpoint.RtcRole :=
  match r with Publisher => TokenEndpoint.PUBLISHER | Audience => TokenEndpoint.SUBSCRIBER end.

(** The [uid] member of the POST body, as the handler reads it. *)
Definition body_uid_of (u : uidv) : TokenEndpoint.body_uid :=
  match u with
  | UStr s => TokenEndpoint.BUStr s
  | UNum z => TokenEndpoint.BUNum (inject_Z z)
  end.

(** A signing primitive that fails with an [Error] carrying [msg]. *)
Definition failing_signer (msg : string) : TokenEndpoint.signer :=
  fun _ _ _ _ _ _ _ => inr (TokenEndpoint.ThrownError msg).

End TokenRoute.

(* ------------------------------------------------------------------ *)
(** ** Saved credentials (agora-utils.ts) *)

Module Credentials.

(** [localStorage]: keys and their string values. *)
Definition storage : Type := list (string * string).

Definition getItem (k : string) (st : storage) : option string := lookup_first k st.

Definition setItem (k v : string) (st : storage) : storage :=
  (k, v) :: List.filter (fun p => negb (String.eqb (fst p) k)) st.

(** The build-time values of [process.env]; [None] is undefined. *)
Record env := mk_env {
  NEXT_PUBLIC_AGORA_APP_ID : option string;
  NEXT_PUBLIC_AGORA_APP_CERTIFICATE : option string
}.

Record options := mk_options { appid : string; certificate : string }.

(** [getOptionsFromLocal()]; [has_window] is [typeof window !== 'undefined']. *)
Definition getOptionsFromLocal (has_window : bool) (e : env) (st : storage) : options :=
  if negb has_window then
    mk_options (opt_or (NEXT_PUBLIC_AGORA_APP_ID e) "")
               (opt_or (NEXT_PUBLIC_AGORA_APP_CERTIFICATE e) "")
  else
    mk_options
      (opt_or (getItem "agora_app_id" st) (opt_or (NEXT_PUBLIC_AGORA_APP_ID e) ""))
      (opt_or (getItem "agora_app_certificate" st)
              (opt_or (NEXT_PUBLIC_AGORA_APP_CERTIFICATE e) "")).

(** [saveAgoraCredentials(appId, appCertificate?)]: the storage afterwards. *)
Definition saveAgoraCredentials (has_window : bool) (appId : string)
    (appCertificate : option string) (st : storage) : storage :=
  if negb has_window then st
  else
    let st1 := setItem "agora_app_id" appId st in
    match appCertificate with
    | Some c => if truthy c then setItem "agora_app_certificate" c st1 else st1
    | None => st1
    end.

Record credentials := mk_credentials { appId : string; appCertificate : string }.

(** [loadAgoraCredentials()] *)
Definition loadAgoraCredentials (has_window : bool) (e : env) (st : storage)
    : credentials :=
  let o := getOptionsFromLocal has_window e st in
  mk_credentials (appid o) (certificate o).

End Credentials.

(* ------------------------------------------------------------------ *)
(** ** App ID checks of the pages (page.tsx, src/unnamed/part_000) *)

Module Pages.

(** [isValidAppId(id)] of the join form: [appIdPattern.test(id.trim())]. *)
Definition isValidAppId (id : string) : bool := app_id_pattern_test (trim id).

(** What the mount effect of [VideoPage] does with the query string: set
    an error, or store the four values and schedule the join. *)
Inductive page_start :=
| PageError (msg : string)
| PageJoin (appId appCertificate channel uid : string).

Definition missing_parameters : string :=
  "Missing required parameters: appId, cert, and channel are required".

Definition VideoPage_params (query : list (string * string)) : page_start :=
  let queryAppId := lookup_first "appId" query in
  let queryAppCertificate := lookup_first "cert" query in
  let queryChannel := lookup_first "channel" query in
  let queryUid := lookup_first "uid" query in
  match queryAppId, queryAppCertificate, queryChannel with
  | Some a, Some c, Some ch =>
      if negb (truthy a && truthy c && truthy ch) then PageError missing_parameters
      else if negb (app_id_pattern_test a) then PageError TokenEndpoint.app_id_format
      else PageJoin a c ch (opt_or queryUid "")
  | _, _, _ => PageError missing_parameters
  end.

End Pages.

(* ------------------------------------------------------------------ *)
(** ** The [useAgoraAudience] hook (src/src/hooks/useAgoraAudience.ts) *)

(** Each callback runs on the latest committed hook state and to its end
    before the next one starts.  The [AgoraClient] object the hook holds is
    the session state it was left in, failed calls included.  The remote
    user list and its polling interval are not modelled. *)
Module AudienceHook.

Record UseAgoraAudienceProps := mk_props {
  appId : string;
  appCertificate : option string;
  channel : string;
  uid : option uidv
}.

Record hook_state := mk_hook {
  client : option state;
  isJoined : bool;
  isJoining : bool;
  error : option string
}.

(** [err instanceof Error ? err.message : fallback]; an [err] without a
    message stands for a thrown value that is not an [Error]. *)
Definition error_message (e : err) (fallback : string) : string :=
  match e_message e with Some m => m | None => fallback end.

(** The [AgoraConfig] built by [joinChannel(providedToken)]. *)
Definition join_config (p : UseAgoraAudienceProps) (providedToken : option string)
    : AgoraConfig :=
  mk_config (appId p) (channel p) providedToken (uid p) (appCertificate p) None None.

Definition joinChannel (w : world) (p : UseAgoraAudienceProps)
    (providedToken : option string) (h : hook_state) : hook_state :=
  if isJoining h || isJoined h then h
  else
    let h1 := mk_hook (client h) (isJoined h) true None in
    match joinAsAudience w (new_AgoraClient (join_config p providedToken)) with
    | (Ok _, agoraClient) => mk_hook (Some agoraClient) true false (error h1)
    | (Throw e, _) =>
        mk_hook (client h1) (isJoined h1) false
          (Some (error_message e "Failed to join channel"))
    end.

Definition leaveChannel (w : world) (h : hook_state) : hook_state :=
  match client h with
  | None => h
  | Some c =>
      if negb (isJoined h) then h
      else
        match leave w c with
        | (Ok _, _) => mk_hook None false (isJoining h) None
        | (Throw e, c') =>
            mk_hook (Some c') (isJoined h) (isJoining h)
              (Some (error_message e "Failed to leave channel"))
        end
  end.

(** The state of a freshly mounted hook. *)
Definition initial : hook_state := mk_hook None false false None.

End AudienceHook.

(* ------------------------------------------------------------------ *)
(** ** [generateUUID] (agora-utils.ts) *)

Module Uuid.
Import QArith.

(** [ToInt32] of an integer. *)
Definition to_int32 (z : Z) : Z := ((z + 2 ^ 31) mod 2 ^ 32 - 2 ^ 31)%Z.

(** [q | 0] for a finite number [q]: truncation, then [ToInt32]. *)
Definition bitor0 (q : Q) : Z := to_int32 (Z.quot (Qnum q) (Zpos (Qden q))).

Definition hex_char (d : Z) : ascii :=
  ascii_of_nat (if Z.ltb d 10 then 48 + Z.to_nat d else 87 + Z.to_nat d).

Fixpoint hex_aux (fuel : nat) (n : Z) (acc : string) : string :=
  match fuel with
  | O => acc
  | S f =>
      let acc' := String (hex_char (n mod 16)) acc in
      if Z.eqb (n / 16) 0 then acc' else hex_aux f (n / 16) acc'
  end.

(** [v.toString(16)] for an integer [v]. *)
Definition to_hex_string (z : Z) : string :=
  let d := hex_aux (S (Z.to_nat (Z.log2 (Z.abs z)))) (Z.abs z) "" in
  if Z.ltb z 0 then "-" ++ d else d.

Definition uuid_template : string := "xxxxxxxx-xxxx-4xxx-yxxx-xxxxxxxxxxxx".

(** [template.replace(/[xy]/g, cb)]: the [i]-th call of [cb] draws
    [random i] for [Math.random()]. *)
Fixpoint replace_xy (tpl : string) (random : nat -> Q) (i : nat) : string :=
  match tpl with
  | EmptyString => EmptyString
  | String c rest =>
      if Ascii.eqb c "x" || Ascii.eqb c "y" then
        let r := bitor0 (random i * 16) in
        let v := if Ascii.eqb c "x" then r else Z.lor (Z.land r 3) 8 in
        to_hex_string v ++ replace_xy rest random (S i)
      else String c (replace_xy rest random i)
  end.

Definition generateUUID (random : nat -> Q) : string :=
  replace_xy uuid_template random 0.

(** A string of the template's shape: a lowercase hexadecimal digit for
    each [x], one of [8], [9], [a], [b] for each [y], the other characters
    as they are. *)
Definition is_lower_hex (c : ascii) : bool :=
  let n := nat_of_ascii c in (Nat.leb 48 n && Nat.leb n 57) || (Nat.leb 97 n && Nat.leb n 102).

Definition is_variant_char (c : ascii) : bool :=
  Ascii.eqb c "8" || Ascii.eqb c "9" || Ascii.eqb c "a" || Ascii.eqb c "b".

Fixpoint matches_template (tpl s : string) : bool :=
  match tpl, s with
  | EmptyString, EmptyString => true
  | String t tr, String c r =>
      (if Ascii.eqb t "x" then is_lower_hex c
       else if Ascii.eqb t "y" then is_variant_char c
       else Ascii.eqb c t) && matches_template tr r
  | _, _ => false
  end.

End Uuid.

(* ------------------------------------------------------------------ *)
(** ** Vocabulary of the further properties *)

(** An engine call that creates or publishes a local track. *)
Definition is_local_media (e : event) : bool :=
  match e with EvCreateTrack _ | EvPublish => true | _ => false end.

(** The session is not a publisher, holds the tracks [v]/[a] it held, and
    its trace extends [tr0] without creating or publishing a local track. *)
Definition audience_frame (v a : bool) (tr0 : list event) (s : state) : Prop :=
  s_pub s = false /\ s_video s = v /\ s_audio s = a /\
  exists tail, s_trace s = (tr0 ++ tail)%list /\
               forallb (fun e => negb (is_local_media e)) tail = true.

(** A call a component makes on the hook: each call meets its own
    environment and the props of the render it was made from. *)
Inductive hook_call :=
| CallJoin (w : world) (p : AudienceHook.UseAgoraAudienceProps) (providedToken : option string)
| CallLeave (w : world).

Definition hook_step (h : AudienceHook.hook_state) (c : hook_call) : AudienceHook.hook_state :=
  match c with
  | CallJoin w p t => AudienceHook.joinChannel w p t h
  | CallLeave w => AudienceHook.leaveChannel w h
  end.

Definition run_calls (calls : list hook_call) (h : AudienceHook.hook_state)
    : AudienceHook.hook_state :=
  fold_left hook_step calls h.

(** [isJoined] holds exactly when the hook holds a client, and no call is
    left marked as in progress. *)
Definition hook_consistent (h : AudienceHook.hook_state) : Prop :=
  (AudienceHook.isJoined h = true <-> AudienceHook.client h <> None) /\
  AudienceHook.isJoining h = false.


(** A server-side render: there is no [window]. *)
Definition no_window_world : world :=
  mk_world (fun _ => FReject network_error)
    false "" "" None None "https://webdemo-for-agora-io.agora.io" "uuid"
    (fun _ _ _ _ => Ok 1%Z) (fun _ => Ok tt) (Ok tt) true
    (fun _ => Ok tt) (fun _ => Ok tt) (Ok tt).

(* ================================================================== *)
(** * Theorems *)

Ltac run :=
  cbv [bind ret throw try_catch get modify emit lift rethrow add_event
       set_client set_video set_audio set_pub fst snd] in *;
  cbv beta iota zeta in *; simpl in *.

(** C9: [validateAgoraToken] accepts exactly the strings that start with
    [006] or [007] and are longer than 50 characters; ["007" + "x" * 60]
    is accepted. *)
Theorem validateAgoraToken_iff :
  (forall v, validateAgoraToken v = true <->
     exists s, v = JString s /\
       ((exists r, s = "006" ++ r) \/ (exists r, s = "007" ++ r)) /\
       50 < String.length s) /\
  validateAgoraToken (JString ("007" ++ xs 60)) = true.
Proof.
  split; [|reflexivity].
  intros v; split.
  - intros H.
    destruct v as [| | b | z | s |]; simpl in H; try discriminate H.
    + destruct b; unfold validateAgoraToken in H; simpl in H; discriminate H.
    + unfold validateAgoraToken in H; simpl in H; destruct (Z.eqb z 0); simpl in H; discriminate H.
    + unfold validateAgoraToken, js_truthy in H.
      exists s. split; [reflexivity|].
      destruct (truthy s); simpl in H; [|discriminate].
      destruct (version_pattern_test s) eqn:Hv; simpl in H; [|discriminate].
      apply Nat.ltb_lt in H. split; [|exact H].
      destruct s as [|c0 [|c1 [|c2 r]]]; try discriminate.
      simpl in Hv. apply andb_prop in Hv as [Hv Hc2].
      apply andb_prop in Hv as [Hc0 Hc1].
      apply Ascii.eqb_eq in Hc0, Hc1; subst.
      apply orb_prop in Hc2 as [Hc2 | Hc2]; apply Ascii.eqb_eq in Hc2; subst;
        [left | right]; exists r; reflexivity.
  - intros (s & -> & Hp & Hl). simpl.
    destruct Hp as [[r ->] | [r ->]]; simpl in *;
      apply Nat.ltb_lt; simpl; lia.
Qed.

(** C5: [join(role)] rejects a blank App ID, then a blank channel, then an
    App ID that is not 32 hexadecimal characters, with the matching error
    and with the session untouched: no token request, no client creation,
    no engine call is recorded. *)
Theorem join_validation_fails_fast : forall w r s,
  (blank (appId (s_config s)) = true ->
     join w r s = (Throw app_id_required_error, s)) /\
  (blank (appId (s_config s)) = false -> blank (channel (s_config s)) = true ->
     join w r s = (Throw channel_required_error, s)) /\
  (blank (appId (s_config s)) = false -> blank (channel (s_config s)) = false ->
   app_id_pattern_test (trim (appId (s_config s))) = false ->
     join w r s = (Throw app_id_format_error, s)).
Proof.
  intros w r s. unfold join. run.
  repeat split; intros H1; try intros H2; try intros H3;
    rewrite ?H1, ?H2, ?H3; reflexivity.
Qed.

Lemma join_validation_fails_fast_witness :
  blank hex_app_id = false /\ blank "" = true /\
  join example_world Audience
    (new_AgoraClient (mk_config hex_app_id "" None None None None None)) =
  (Throw channel_required_error,
   new_AgoraClient (mk_config hex_app_id "" None None None None None)).
Proof.
  split; [reflexivity|]. split; [reflexivity|].
  apply (proj1 (proj2 (join_validation_fails_fast example_world Audience
    (new_AgoraClient (mk_config hex_app_id "" None None None None None)))));
    reflexivity.
Defined.

(** ** Frame lemmas: state properties kept by monadic code *)

Section Preserves.
Variable P : state -> Prop.

Definition preserves {A} (m : M A) : Prop := forall s, P s -> P (snd (m s)).

Lemma preserves_ret {A} (a : A) : preserves (ret a).
Proof. intros s H. exact H. Qed.

Lemma preserves_throw {A} (e : err) : preserves (A := A) (throw e).
Proof. intros s H. exact H. Qed.

Lemma preserves_get : preserves get.
Proof. intros s H. exact H. Qed.

Lemma preserves_lift {A} (o : outcome A) : preserves (lift o).
Proof. intros s H. exact H. Qed.

Lemma preserves_modify (f : state -> state) :
  (forall s, P s -> P (f s)) -> preserves (modify f).
Proof. intros Hf s H. exact (Hf s H). Qed.

Lemma preserves_bind {A B} (m : M A) (k : A -> M B) :
  preserves m -> (forall a, preserves (k a)) -> preserves (bind m k).
Proof.
  intros Hm Hk s H. unfold bind.
  specialize (Hm s H). destruct (m s) as [[a|e] s']; simpl in *; auto.
  apply Hk. exact Hm.
Qed.

Lemma preserves_try {A} (m : M A) (h : err -> M A) :
  preserves m -> (forall e, preserves (h e)) -> preserves (try_catch m h).
Proof.
  intros Hm Hh s H. unfold try_catch.
  specialize (Hm s H). destruct (m s) as [[a|e] s']; simpl in *; auto.
  apply Hh. exact Hm.
Qed.

End Preserves.

Ltac preserves_tac side :=
  repeat match goal with
  | |- preserves _ (bind _ _) => apply preserves_bind; [ | intro ]
  | |- preserves _ (try_catch _ _) => apply preserves_try; [ | intro ]
  | |- preserves _ (ret _) => apply preserves_ret
  | |- preserves _ (throw _) => apply preserves_throw
  | |- preserves _ (rethrow _) => apply preserves_throw
  | |- preserves _ get => apply preserves_get
  | |- preserves _ (lift _) => apply preserves_lift
  | |- preserves _ (emit _) => apply preserves_modify; side
  | |- preserves _ (modify _) => apply preserves_modify; side
  | |- preserves _ (let _ := _ in _) => cbv zeta
  | |- preserves _ (match ?x with _ => _ end) => destruct x
  | |- preserves _ (if ?b then _ else _) => destruct b
  end.

Ltac client_side :=
  unfold client_is_rtc_vp8; intros ? HP ? Hh; simpl in *;
  first [ congruence | exact (HP _ Hh) ].

Ltac unfold_program :=
  unfold joinAsAudience, joinAsPublisher, join, initClient,
    setupEventListeners, createAndPublishTracks, create_track, leave,
    stop_and_close, generateToken, generateTokenFromServer,
    generateTokenFromBackend, agoraGetAppData, http_error, fetch, json, deref.

Lemma join_keeps_rtc_vp8 : forall w r,
  preserves client_is_rtc_vp8 (join w r).
Proof. intros w r. unfold_program. preserves_tac client_side. Qed.

(** C10: whatever [mode] and [codec] the configuration carries, the RTC
    client the session controller creates is an [rtc]/[vp8] client. *)
Theorem client_mode_codec_forced : forall w config,
  client_is_rtc_vp8 (snd (joinAsAudience w (new_AgoraClient config))) /\
  client_is_rtc_vp8 (snd (joinAsPublisher w (new_AgoraClient config))).
Proof.
  intros w config.
  assert (H0 : client_is_rtc_vp8 (new_AgoraClient config)).
  { intros h Hh. discriminate Hh. }
  split; unfold joinAsAudience, joinAsPublisher;
    apply preserves_bind; try (intros; apply join_keeps_rtc_vp8);
    try (apply preserves_modify; client_side); exact H0.
Qed.

(** ** Engine errors surfaced by [join] *)

Ltac nocall_side :=
  let st := fresh "st" in let tl := fresh "tl" in
  let Ht := fresh "Ht" in let Hn := fresh "Hn" in
  intros st (tl & Ht & Hn);
  first
  [ exists tl; split; [exact Ht | exact Hn]
  | refine (ex_intro _ (tl ++ [_])%list (conj _ _));
      [ cbn [add_event s_trace]; rewrite Ht, app_assoc; reflexivity
      | let ev := fresh "ev" in let Hin := fresh "Hin" in
        intros ev Hin; apply in_app_or in Hin as [Hin|[<-|[]]];
        [exact (Hn ev Hin) | reflexivity] ] ].

Lemma token_try_nocalls : forall w r tr0,
  preserves (no_engine_error w tr0)
    (try_catch (generateToken w r) (fun _ => throw token_failure_error)).
Proof.
  intros w r tr0.
  unfold generateToken, generateTokenFromServer, generateTokenFromBackend,
    agoraGetAppData, http_error, fetch, json, deref.
  preserves_tac nocall_side.
Qed.

Lemma surfaces_nocalls : forall w {A} f (m : M A),
  (forall tr0, preserves (no_engine_error w tr0) m) -> surfaces w f m.
Proof.
  intros w A f m H s.
  destruct (H (s_trace s) s) as (tail & Ht & Hn).
  { exists []. split; [symmetry; apply app_nil_r | intros ev []]. }
  exists tail. split; [exact Ht|].
  intros ev e Hin He. rewrite (Hn ev Hin) in He. discriminate He.
Qed.

Lemma surfaces_bind : forall w {A B} f (m : M A) (k : A -> M B),
  surfaces w f m -> (forall a, surfaces w f (k a)) -> surfaces w f (bind m k).
Proof.
  intros w A B f m k Hm Hk s.
  destruct (Hm s) as (t1 & Ht1 & He1).
  unfold bind. revert Ht1 He1.
  destruct (m s) as [[a|e'] s1]; cbn [fst snd]; intros Ht1 He1.
  - destruct (Hk a s1) as (t2 & Ht2 & He2).
    exists (t1 ++ t2)%list. split; [rewrite Ht2, Ht1, app_assoc; reflexivity|].
    intros ev e Hin Hev. apply in_app_or in Hin as [Hin|Hin].
    + discriminate (He1 ev e Hin Hev).
    + exact (He2 ev e Hin Hev).
  - exists t1. split; [exact Ht1|]. intros ev e Hin Hev.
    injection (He1 ev e Hin Hev) as ->. reflexivity.
Qed.

Lemma surfaces_try_throw : forall w {A} g (m : M A),
  surfaces w (fun e => e) m -> surfaces w g (try_catch m (fun e => throw (g e))).
Proof.
  intros w A g m Hm s. destruct (Hm s) as (t & Ht & He).
  unfold try_catch, throw. revert Ht He.
  destruct (m s) as [[a|e'] s1]; cbn [fst snd]; intros Ht He.
  - exists t. split; [exact Ht|]. intros ev e Hin Hev. discriminate (He ev e Hin Hev).
  - exists t. split; [exact Ht|]. intros ev e Hin Hev.
    injection (He ev e Hin Hev) as ->. reflexivity.
Qed.

Lemma surfaces_try_rethrow : forall w {A} f (m : M A),
  surfaces w f m -> surfaces w f (try_catch m rethrow).
Proof.
  intros w A f m Hm s. destruct (Hm s) as (t & Ht & He).
  unfold try_catch, rethrow, throw. revert Ht He.
  destruct (m s) as [[a|e'] s1]; cbn [fst snd]; intros Ht He;
    exists t; split; assumption.
Qed.

Lemma surfaces_emit_lift_k : forall w {A B} ev (o : outcome A) (k : A -> M B),
  engine_error w ev = err_of o -> (forall a, surfaces w (fun e => e) (k a)) ->
  surfaces w (fun e => e) (bind (emit ev) (fun _ => bind (lift o) k)).
Proof.
  intros w A B ev o k Hev Hk s. unfold bind, emit, modify, lift. cbv beta iota.
  destruct o as [a|e0]; cbn [err_of] in Hev.
  - destruct (Hk a (add_event ev s)) as (t & Ht & He).
    exists (ev :: t). split.
    + rewrite Ht. cbn [add_event s_trace]. rewrite <- app_assoc. reflexivity.
    + intros ev' e [<-|Hin] Hev'; [congruence | exact (He ev' e Hin Hev')].
  - exists [ev]. split; [reflexivity|].
    intros ev' e [<-|[]] Hev'. cbn [fst]. congruence.
Qed.

Lemma surfaces_emit_lift : forall w {A} ev (o : outcome A),
  engine_error w ev = err_of o ->
  surfaces w (fun e => e) (bind (emit ev) (fun _ => lift o)).
Proof.
  intros w A ev o Hev s. unfold bind, emit, modify, lift. cbv beta iota.
  destruct o as [a|e0]; cbn [err_of] in Hev.
  - exists [ev]. split; [reflexivity|]. intros ev' e [<-|[]] Hev'. congruence.
  - exists [ev]. split; [reflexivity|].
    intros ev' e [<-|[]] Hev'. cbn [fst]. congruence.
Qed.

Ltac surfaces_tac :=
  repeat match goal with
  | |- surfaces _ _ (bind (emit _) (fun _ => bind (lift _) _)) =>
      apply surfaces_emit_lift_k; [reflexivity | intro]
  | |- surfaces _ _ (bind (emit _) (fun _ => lift _)) =>
      apply surfaces_emit_lift; reflexivity
  | |- surfaces _ _ (bind _ _) => apply surfaces_bind; [ | intro ]
  | |- surfaces _ _ (try_catch (generateToken _ _) _) =>
      apply surfaces_nocalls; intro; apply token_try_nocalls
  | |- surfaces _ _ (try_catch _ rethrow) => apply surfaces_try_rethrow
  | |- surfaces _ _ (try_catch _ (fun e => throw _)) => apply surfaces_try_throw
  | |- surfaces _ _ (let _ := _ in _) => cbv zeta
  | |- surfaces _ _ (match ?x with _ => _ end) => destruct x
  | |- surfaces _ _ (if ?b then _ else _) => destruct b
  | |- surfaces _ _ _ => apply surfaces_nocalls; intro; preserves_tac nocall_side
  end.

Lemma join_surfaces : forall w r,
  surfaces w (fun e => js_error (join_error_message e)) (join w r).
Proof.
  intros w r.
  unfold join, initClient, setupEventListeners, createAndPublishTracks, create_track.
  surfaces_tac.
Qed.

(** C7: every error the RTC engine throws during [join] is rethrown with
    the message of the fixed table.  This holds for the engine's join,
    whether the token was supplied or generated and whether or not
    [initClient] had to create the client first, and for creating or
    publishing a local track.  [INVALID_TOKEN] gives exactly "Invalid
    token. Please check your token or generate a new one.", and a code
    outside the table gives "Failed to join channel: " followed by the
    error's message, else its code, else "Unknown error". *)
Theorem join_engine_error_mapping : forall w r s tail ev e,
  s_trace (snd (join w r s)) = (s_trace s ++ tail)%list ->
  In ev tail -> engine_error w ev = Some e ->
  fst (join w r s) = Throw (js_error (join_error_message e)) /\
  (e_code e = Some "INVALID_TOKEN" ->
     join_error_message e = "Invalid token. Please check your token or generate a new one.") /\
  ((forall k, In k join_error_codes -> e_code e <> Some k) ->
     join_error_message e =
       "Failed to join channel: " ++ opt_or (e_message e) (opt_or (e_code e) "Unknown error")).
Proof.
  intros w r s tail ev e Ht Hin Hev.
  split; [|split].
  - destruct (join_surfaces w r s) as (tail' & Ht' & He).
    rewrite Ht in Ht'. apply app_inv_head in Ht'. subst tail'.
    exact (He ev e Hin Hev).
  - intros Hcode. unfold join_error_message. rewrite Hcode. reflexivity.
  - intros Hun. unfold join_error_message.
    destruct (e_code e) as [c|] eqn:Hcode; [|reflexivity].
    unfold code_is.
    assert (Hne : forall k, In k join_error_codes -> String.eqb c k = false).
    { intros k Hk. apply String.eqb_neq. intros ->. exact (Hun k Hk eq_refl). }
    rewrite !Hne; simpl; auto 6.
Qed.

Lemma join_engine_error_mapping_witness :
  fst (join bad_token_world Audience (new_AgoraClient (example_config (Some "007tok") None))) =
  Throw (js_error "Invalid token. Please check your token or generate a new one.").
Proof.
  destruct (join_engine_error_mapping bad_token_world Audience
     (new_AgoraClient (example_config (Some "007tok") None))
     [EvCreateClient "rtc" "vp8"; EvOn "user-published"; EvOn "user-unpublished";
      EvOn "user-left"; EvOn "connection-state-change";
      EvJoin hex_app_id "demo" (Some "007tok") None]
     (EvJoin hex_app_id "demo" (Some "007tok") None)
     (mk_err (Some "INVALID_TOKEN") (Some "invalid token"))
     ltac:(vm_compute; reflexivity) ltac:(simpl; tauto) ltac:(reflexivity))
     as [H1 [H2 _]].
  rewrite H1, H2 by reflexivity. reflexivity.
Defined.

Ltac split_matches :=
  repeat match goal with
  | |- context [match ?x with _ => _ end] =>
      lazymatch x with
      | context [match _ with _ => _ end] => fail
      | _ => destruct x eqn:?
      end
  end.

Ltac rewrite_eqs :=
  repeat (progress (cbv beta iota zeta; simpl;
                    try match goal with
                        | H : ?x = _ |- context [?x] => progress rewrite H
                        end)).

(** C4 (amended): [leave()] does nothing without a client; with one, it
    stops and closes the video track, then the audio track (each only if
    held, clearing the reference), then awaits the engine's leave and
    clears the publisher flag, all inside a single [try] block: when every
    track step succeeds the engine's answer is the result, and the first
    track step that throws ends [leave()] with its error, before the
    engine's leave is called: the calls made are exactly the track steps
    up to and including the failing one, and the publisher flag is left
    as it was. *)
Theorem leave_teardown_in_one_try_block : forall w s,
  (s_client s = None -> leave w s = (Ok tt, s)) /\
  (s_client s <> None -> teardown_ok w s = true ->
     s_trace (snd (leave w s)) = (s_trace s ++ teardown_events s ++ [EvLeave])%list /\
     fst (leave w s) = w_engine_leave w /\
     s_video (snd (leave w s)) = false /\ s_audio (snd (leave w s)) = false /\
     s_pub (snd (leave w s)) = (if is_ok (w_engine_leave w) then false else s_pub s)) /\
  (s_client s <> None -> teardown_ok w s = false ->
     exists e evs,
       first_failure (teardown_steps w s) = Some (e, evs) /\
       fst (leave w s) = Throw e /\
       s_trace (snd (leave w s)) = (s_trace s ++ evs)%list /\
       s_pub (snd (leave w s)) = s_pub s /\
       s_client (snd (leave w s)) = s_client s).
Proof.
  intros w s. split; [|split].
  - intros Hc. unfold leave. run. rewrite Hc. reflexivity.
  - intros Hc Hok. unfold leave, stop_and_close, teardown_ok, teardown_events in *.
    run. destruct (s_client s) as [h|]; [|contradiction]. run.
    destruct (s_video s) eqn:Ev, (s_audio s) eqn:Ea; simpl in Hok;
      destruct (w_stop w Video) as [[]|] eqn:?, (w_close w Video) as [[]|] eqn:?,
               (w_stop w Audio) as [[]|] eqn:?, (w_close w Audio) as [[]|] eqn:?;
      simpl in Hok; try discriminate Hok; clear Hok;
      destruct (w_engine_leave w) as [[]|] eqn:?; rewrite_eqs;
      rewrite <- ?app_assoc; repeat split; rewrite_eqs; reflexivity.
  - intros Hc Hok. unfold leave, stop_and_close, teardown_ok, teardown_steps in *.
    run. destruct (s_client s) as [h|] eqn:Ecl; [|contradiction]. run.
    destruct (s_video s) eqn:Ev, (s_audio s) eqn:Ea; simpl in Hok;
      destruct (w_stop w Video) as [[]|e1] eqn:?, (w_close w Video) as [[]|e2] eqn:?,
               (w_stop w Audio) as [[]|e3] eqn:?, (w_close w Audio) as [[]|e4] eqn:?;
      simpl in Hok; try discriminate Hok; clear Hok; rewrite_eqs;
      rewrite <- ?app_assoc;
      (eexists _, _; split; [reflexivity|]; split; [reflexivity|];
       split; [reflexivity|]; split; [reflexivity|]; cbn; congruence).
Qed.

Lemma leave_teardown_in_one_try_block_witness :
  teardown_ok example_world publishing_state = true /\
  s_trace (snd (leave example_world publishing_state)) =
    [EvStop Video; EvClose Video; EvStop Audio; EvClose Audio; EvLeave] /\
  teardown_ok stuck_camera_world publishing_state = false /\
  fst (leave stuck_camera_world publishing_state) = Throw (js_error "stop failed") /\
  s_trace (snd (leave stuck_camera_world publishing_state)) = [EvStop Video].
Proof.
  split; [reflexivity|]. split.
  { apply (proj1 (proj2 (leave_teardown_in_one_try_block example_world publishing_state)));
      [discriminate | reflexivity]. }
  split; [reflexivity|].
  destruct (proj2 (proj2 (leave_teardown_in_one_try_block stuck_camera_world
              publishing_state)) ltac:(discriminate) eq_refl)
    as (e & evs & H1 & H2 & H3 & _).
  vm_compute in H1. injection H1 as <- <-. split; [exact H2 | exact H3].
Defined.

(** C4 (counterexample): when stopping the camera track throws, [leave()]
    rethrows that error at once: the microphone track is neither stopped
    nor released and the engine's leave is never called. *)
Lemma leave_teardown_failure_blocks_rest :
  leave stuck_camera_world publishing_state =
  (Throw (js_error "stop failed"), add_event (EvStop Video) publishing_state).
Proof. reflexivity. Qed.

(** C3: after a [leave()] that resolved, the client handle is still held,
    so a second [leave()] calls the engine's leave again and returns
    whatever the engine answers; [leave()] without a client does nothing. *)
Theorem leave_twice_calls_engine_again : forall w s,
  s_client s <> None ->
  fst (leave w s) = Ok tt ->
  s_client (snd (leave w s)) = s_client s /\
  s_trace (snd (leave w (snd (leave w s)))) =
    (s_trace (snd (leave w s)) ++ [EvLeave])%list /\
  fst (leave w (snd (leave w s))) = w_engine_leave w.
Proof.
  intros w s Hc Hok. unfold leave, stop_and_close in *.
  run. destruct (s_client s) as [h|] eqn:Ec; [|contradiction]. run. rewrite ?Ec in *.
  destruct (s_video s) eqn:Ev, (s_audio s) eqn:Ea;
    destruct (w_stop w Video) as [[]|] eqn:?, (w_close w Video) as [[]|] eqn:?,
             (w_stop w Audio) as [[]|] eqn:?, (w_close w Audio) as [[]|] eqn:?;
    destruct (w_engine_leave w) as [[]|] eqn:?; rewrite_eqs;
    rewrite ?Ev, ?Ea in Hok; rewrite_eqs; simpl in Hok; try discriminate Hok;
    repeat split; rewrite_eqs; reflexivity.
Qed.

Lemma leave_twice_calls_engine_again_witness :
  fst (leave example_world publishing_state) = Ok tt /\
  s_trace (snd (leave example_world (snd (leave example_world publishing_state)))) =
    [EvStop Video; EvClose Video; EvStop Audio; EvClose Audio; EvLeave; EvLeave].
Proof.
  split; [reflexivity|].
  rewrite (proj1 (proj2 (leave_twice_calls_engine_again example_world publishing_state
            ltac:(discriminate) eq_refl))).
  reflexivity.
Defined.

(** ** The token provider *)

Lemma generateTokenFromServer_state : forall w a c ch u r s,
  snd (generateTokenFromServer w a c ch u r s) =
  add_event (EvFetch (server_request a c ch u r)) s.
Proof.
  intros. unfold generateTokenFromServer, http_error, fetch, json, deref. run.
  destruct (w_fetch w _) as [e|st [ | | o]]; run; try reflexivity;
    destruct (response_ok st); run; try reflexivity;
    destruct (code_is_zero (r_code o)); run; try reflexivity;
    destruct (r_data o); reflexivity.
Qed.

Lemma generateTokenFromBackend_state : forall w a c ch u r s,
  snd (generateTokenFromBackend w a c ch u r s) =
  add_event (EvFetch (backend_request a c ch u r 3600)) s.
Proof.
  intros. unfold generateTokenFromBackend, http_error, fetch, json, deref. run.
  destruct (w_fetch w _) as [e|st [ | | o]]; run; try reflexivity;
    destruct (response_ok st); reflexivity.
Qed.

Lemma generateTokenFromBackend_result : forall w a c ch u r s1 s2,
  fst (generateTokenFromBackend w a c ch u r s1) =
  fst (generateTokenFromBackend w a c ch u r s2).
Proof.
  intros. unfold generateTokenFromBackend, http_error, fetch, json, deref. run.
  destruct (w_fetch w _) as [e|st [ | | o]]; run; try reflexivity;
    destruct (response_ok st); reflexivity.
Qed.

(** The GET endpoint succeeds exactly when it answers a 2xx JSON object with
    [code: 0] and a [data] object; the token is [data.token]. *)
Lemma generateTokenFromServer_ok : forall w a c ch u r s t,
  fst (generateTokenFromServer w a c ch u r s) = Ok t <->
  exists st o dd,
    w_fetch w (server_request a c ch u r) = FResp st (BObj o) /\
    response_ok st = true /\ code_is_zero (r_code o) = true /\
    r_data o = Some dd /\ t = d_token dd.
Proof.
  intros. unfold generateTokenFromServer, http_error, fetch, json, deref. run.
  split.
  - destruct (w_fetch w _) as [e|st [ | | o]]; run; try discriminate;
      destruct (response_ok st) eqn:Hok; run; try discriminate;
      destruct (code_is_zero (r_code o)) eqn:Hc; run; try discriminate;
      destruct (r_data o) as [dd|] eqn:Hd; run; try discriminate.
    intros H. injection H as <-. exists st, o, dd. auto.
  - intros (st & o & dd & Hf & Hok & Hc & Hd & ->). rewrite Hf. run.
    rewrite Hok, Hc, Hd. reflexivity.
Qed.

Lemma generateToken_with_certificate : forall w r s cert,
  present_cert (appCertificate (s_config s)) = Some cert ->
  generateToken w r s =
    match primary_call w s r cert s with
    | (Ok t, s') => (Ok t, s')
    | (Throw _, s') => secondary_call w s r cert s'
    end.
Proof.
  intros w r s cert Hc.
  unfold generateToken. run. rewrite Hc. unfold primary_call, secondary_call.
  destruct (generateTokenFromServer _ _ _ _ _ _ s) as [[t|e] s']; run;
    [reflexivity|].
  destruct (generateTokenFromBackend _ _ _ _ _ _ s') as [[t|e'] s'']; reflexivity.
Qed.

Lemma generateToken_without_certificate : forall w r s,
  present_cert (appCertificate (s_config s)) = None ->
  generateToken w r s =
    match demo_call w s s with
    | (Ok v, s') => if opt_truthy v then (Ok v, s') else (Throw no_token_error, s')
    | (Throw e, s') => (Throw e, s')
    end.
Proof.
  intros w r s Hc.
  unfold generateToken. run. rewrite Hc. unfold demo_call.
  destruct (agoraGetAppData _ _ _ _ s) as [[v|e] s']; run; [|reflexivity].
  destruct (opt_truthy v); reflexivity.
Qed.

Lemma agoraGetAppData_no_request : forall w u ch a s,
  demo_request w u ch = None -> agoraGetAppData w u ch a s = (Ok None, s).
Proof. intros w u ch a s H. unfold agoraGetAppData. rewrite H. reflexivity. Qed.

Lemma agoraGetAppData_request : forall w u ch a s req,
  demo_request w u ch = Some req ->
  snd (agoraGetAppData w u ch a s) = add_event (EvFetch req) s /\
  (forall t, fst (agoraGetAppData w u ch a s) = Ok (Some t) -> truthy t = true).
Proof.
  intros w u ch a s req H. unfold agoraGetAppData, fetch, json, deref. rewrite H. run.
  destruct (w_fetch w req) as [e|st [ | | o]]; run; try (split; [reflexivity|discriminate]).
  destruct (code_is_zero (r_code o)); run; [|split; [reflexivity|discriminate]].
  split; [reflexivity|].
  intros t Ht. injection Ht as Ht.
  destruct (opt_truthy _) eqn:Htr; [|discriminate].
  rewrite Ht in Htr. exact Htr.
Qed.

(** C1 (amended): with a certificate, [generateToken] first sends the
    query-string GET to [/api/agora/token]; if that call throws (network
    error, non-2xx answer, unparsable body, [code] other than 0, no [data]
    object) it sends the JSON POST to the same path with the same
    credentials and returns its result; if the GET fails on the network and
    the POST answers token ["T1"], the result is ["T1"]. *)
Theorem generateToken_primary_then_secondary : forall w r s cert,
  present_cert (appCertificate (s_config s)) = Some cert ->
  (forall t, fst (primary_call w s r cert s) = Ok t ->
     generateToken w r s = (Ok t, add_event (EvFetch (primary_request s r cert)) s)) /\
  (forall e, fst (primary_call w s r cert s) = Throw e ->
     generateToken w r s =
       (fst (secondary_call w s r cert s),
        add_event (EvFetch (secondary_request s r cert))
          (add_event (EvFetch (primary_request s r cert)) s))) /\
  (forall t, fst (primary_call w s r cert s) = Ok t <->
     exists st o dd,
       w_fetch w (primary_request s r cert) = FResp st (BObj o) /\
       response_ok st = true /\ code_is_zero (r_code o) = true /\
       r_data o = Some dd /\ t = d_token dd) /\
  (forall e st o,
     w_fetch w (primary_request s r cert) = FReject e ->
     w_fetch w (secondary_request s r cert) = FResp st (BObj o) ->
     response_ok st = true -> r_token o = Some "T1" ->
     fst (generateToken w r s) = Ok (Some "T1")).
Proof.
  intros w r s cert Hc.
  pose proof (generateToken_with_certificate w r s cert Hc) as Hgen.
  pose proof (generateTokenFromServer_state w (appId (s_config s)) cert
    (channel (s_config s)) (uid_or_zero (uid (s_config s))) r s) as Hs.
  fold (primary_call w s r cert) in Hs.
  split; [|split; [|split]].
  - intros t Ht. rewrite Hgen.
    destruct (primary_call w s r cert s) as [o s'] eqn:E; simpl in *; subst o s'.
    reflexivity.
  - intros e He. rewrite Hgen.
    destruct (primary_call w s r cert s) as [o s'] eqn:E; simpl in *; subst o s'.
    rewrite (surjective_pairing (secondary_call w s r cert _)).
    unfold secondary_call, secondary_request.
    rewrite generateTokenFromBackend_state, (generateTokenFromBackend_result _ _ _ _ _ _ _ s).
    reflexivity.
  - intros t. apply generateTokenFromServer_ok.
  - intros e st o Hp Hsec Hok Ht. rewrite Hgen.
    assert (Hpr : primary_call w s r cert s =
              (Throw e, add_event (EvFetch (primary_request s r cert)) s)).
    { unfold primary_call, primary_request in *.
      unfold generateTokenFromServer, fetch. run. rewrite Hp. reflexivity. }
    rewrite Hpr.
    unfold secondary_call, secondary_request in *.
    unfold generateTokenFromBackend, http_error, fetch, json, deref. run.
    rewrite Hsec. run. rewrite Hok. run. rewrite Ht. reflexivity.
Qed.

Lemma generateToken_primary_then_secondary_witness :
  fst (generateToken example_world Audience
         (ready_state (example_config None (Some "cert")))) = Ok (Some "T1").
Proof.
  apply (proj2 (proj2 (proj2 (generateToken_primary_then_secondary example_world
     Audience (ready_state (example_config None (Some "cert")))
     "cert" eq_refl)))) with (e := network_error) (st := 200%Z)
     (o := mk_resp (Some 0%Z) None None (Some (mk_data (Some "T1") None)) (Some "T1"));
    reflexivity.
Defined.

(** C1 (counterexample): the JSON POST is not the primary endpoint: when
    both endpoints answer, [generateToken] returns the GET endpoint's token
    and never sends the POST. *)
Lemma generateToken_sends_get_first :
  generateToken both_endpoints_world Audience
    (ready_state (example_config None (Some "cert"))) =
  (Ok (Some "T1"),
   add_event (EvFetch (primary_request (ready_state (example_config None (Some "cert")))
                        Audience "cert"))
     (ready_state (example_config None (Some "cert")))).
Proof. reflexivity. Qed.

(** C2 (amended): without a certificate, [generateToken] asks the vendor
    demo server through [agoraGetAppData] (an encrypted-credential request
    when the page URL carries both [encryptedId] and [encryptedSecret],
    otherwise a direct request with the cached certificate, and no request
    at all when none is cached); it fails with exactly "No token generation
    method available. Please provide App Certificate." when that yields no
    token, rethrows the demo request's own error, and never resolves to an
    empty or missing token.  With a certificate the demo server is never
    contacted: only the two signing-endpoint requests are sent, and when
    both fail the secondary endpoint's error is rethrown. *)
Theorem generateToken_demo_server_only_without_certificate : forall w r s,
  (present_cert (appCertificate (s_config s)) = None ->
     (demo_request w (uid_or_zero (uid (s_config s))) (channel (s_config s)) = None ->
        generateToken w r s = (Throw no_token_error, s)) /\
     (forall req,
        demo_request w (uid_or_zero (uid (s_config s))) (channel (s_config s)) = Some req ->
        s_trace (snd (generateToken w r s)) = (s_trace s ++ [EvFetch req])%list) /\
     fst (generateToken w r s) =
       match fst (demo_call w s s) with
       | Ok (Some t) => Ok (Some t)
       | Ok None => Throw no_token_error
       | Throw e => Throw e
       end /\
     (forall v, fst (generateToken w r s) = Ok v -> exists t, v = Some t /\ t <> "")) /\
  (forall cert, present_cert (appCertificate (s_config s)) = Some cert ->
     (forall e1 e2,
        fst (primary_call w s r cert s) = Throw e1 ->
        fst (secondary_call w s r cert s) = Throw e2 ->
        fst (generateToken w r s) = Throw e2) /\
     exists tail,
       s_trace (snd (generateToken w r s)) = (s_trace s ++ tail)%list /\
       forall req, In (EvFetch req) tail ->
         req = primary_request s r cert \/ req = secondary_request s r cert).
Proof.
  intros w r s. split.
  - intros Hc. rewrite (generateToken_without_certificate w r s Hc).
    unfold demo_call.
    destruct (demo_request w (uid_or_zero (uid (s_config s))) (channel (s_config s)))
      as [req|] eqn:Hd.
    + destruct (agoraGetAppData_request w _ _ (appId (s_config s)) s req Hd) as [Hst Htr].
      destruct (agoraGetAppData w _ _ _ s) as [[v|e] s'] eqn:E; simpl in Hst, Htr; subst s'.
      * split; [discriminate|]. split.
        { intros req' Hreq. injection Hreq as <-.
          destruct (opt_truthy v); reflexivity. }
        destruct v as [t|]; simpl.
        { specialize (Htr t eq_refl). rewrite Htr. split; [reflexivity|].
          intros v Hv. injection Hv as <-. exists t. split; [reflexivity|].
          intros ->. discriminate Htr. }
        { split; [reflexivity|]. discriminate. }
      * split; [discriminate|]. split.
        { intros req' Hreq. injection Hreq as <-. reflexivity. }
        split; [reflexivity|]. discriminate.
    + rewrite (agoraGetAppData_no_request w _ _ _ s Hd). simpl.
      split; [reflexivity|]. split; [discriminate|].
      split; [reflexivity|]. discriminate.
  - intros cert Hc. rewrite (generateToken_with_certificate w r s cert Hc).
    pose proof (generateTokenFromServer_state w (appId (s_config s)) cert
      (channel (s_config s)) (uid_or_zero (uid (s_config s))) r s) as Hs.
    fold (primary_call w s r cert) in Hs.
    destruct (primary_call w s r cert s) as [[t|e1] s'] eqn:E; simpl in Hs; subst s'.
    + split; [discriminate|].
      exists [EvFetch (primary_request s r cert)]. split; [reflexivity|].
      intros req [Hreq|[]]. injection Hreq as <-. left. reflexivity.
    + split.
      { intros e1' e2 _ He2. unfold secondary_call in *.
        rewrite (generateTokenFromBackend_result _ _ _ _ _ _ _ s). exact He2. }
      exists [EvFetch (primary_request s r cert); EvFetch (secondary_request s r cert)].
      split.
      { unfold secondary_call. rewrite generateTokenFromBackend_state.
        simpl. rewrite <- app_assoc. reflexivity. }
      intros req [Hreq|[Hreq|[]]]; injection Hreq as <-; auto.
Qed.

Lemma generateToken_demo_server_only_without_certificate_witness :
  generateToken offline_world Audience (ready_state (example_config None None)) =
  (Throw no_token_error, ready_state (example_config None None)).
Proof.
  apply (proj1 (proj1 (generateToken_demo_server_only_without_certificate
     offline_world Audience (ready_state (example_config None None))) eq_refl));
    reflexivity.
Defined.

(** C2 (counterexample): with a certificate whose signing endpoint is down
    on both transports, [generateToken] rethrows the network error without
    contacting the vendor demo server, although a cached certificate would
    let that server answer ["D1"]. *)
Lemma generateToken_skips_demo_server_with_certificate :
  generateToken endpoints_down_world Audience
    (ready_state (example_config None (Some "cert"))) =
  (Throw network_error,
   add_event (EvFetch (secondary_request (ready_state (example_config None (Some "cert")))
                        Audience "cert"))
     (add_event (EvFetch (primary_request (ready_state (example_config None (Some "cert")))
                           Audience "cert"))
        (ready_state (example_config None (Some "cert"))))) /\
  network_error <> no_token_error /\
  fst (demo_call endpoints_down_world (ready_state (example_config None (Some "cert")))
         (ready_state (example_config None (Some "cert")))) = Ok (Some "D1").
Proof. split; [reflexivity|]. split; [discriminate|reflexivity]. Qed.

(** ** Session controller: token failure during [join] *)

(** C6: when no token is supplied and the token provider fails, [join]
    stops before the engine's join (the session ends as the provider left
    it) but its outer [catch] rewraps the provider error: the caller gets
    "Failed to join channel: Token generation failed. Please check your App
    Certificate or server configuration.", not the message itself. *)
Theorem join_token_failure_rewrapped : forall w r s e,
  blank (appId (s_config s)) = false ->
  blank (channel (s_config s)) = false ->
  app_id_pattern_test (trim (appId (s_config s))) = true ->
  s_client s <> None ->
  opt_truthy (token (s_config s)) = false ->
  fst (generateToken w r s) = Throw e ->
  join w r s =
    (Throw (js_error ("Failed to join channel: " ++
       "Token generation failed. Please check your App Certificate or server configuration.")),
     snd (generateToken w r s)).
Proof.
  intros w r s e Ha Hc Hp Hcl Ht He.
  unfold join. run. rewrite Ha, Hc, Hp. simpl.
  destruct (s_client s) as [h|] eqn:E; [|contradiction]. run. rewrite ?E.
  rewrite Ht.
  destruct (generateToken w r s) as [o s'] eqn:G. simpl in He. subst o.
  reflexivity.
Qed.

Lemma join_token_failure_rewrapped_witness :
  fst (join offline_world Audience (ready_state (example_config None None))) =
  Throw (js_error ("Failed to join channel: " ++
    "Token generation failed. Please check your App Certificate or server configuration.")).
Proof.
  rewrite (join_token_failure_rewrapped offline_world Audience
     (ready_state (example_config None None)) no_token_error);
    try reflexivity; discriminate.
Defined.

(** ** The token endpoint *)

Module EndpointFacts.
Import TokenEndpoint QArith.

(** C8 (amended): the POST handler answers 400 "App ID, App Certificate,
    and Channel Name are required" when one of the three is missing or
    empty and 400 with the App-ID-format message when the App ID is not 32
    hexadecimal characters; otherwise it calls the signing primitive once
    with expiry [floor(now/1000) + expireTimeInSeconds] (3600 when absent),
    the publisher role for ["publisher"] and the subscriber role otherwise,
    and [uid] read by [parseInt] (0 when [NaN]) for a string, passed through
    unchanged for a number, 0 when absent; it answers 200 with the token,
    that uid and [expireTime], or 500 with the primitive's error message. *)
Theorem POST_contract : forall sign now b,
  (opt_truthy (tr_appId b) && opt_truthy (tr_appCertificate b) &&
   opt_truthy (tr_channelName b) = false ->
     POST sign now (inr b) = mk_response 400 (RError fields_required)) /\
  (forall appId appCertificate channelName,
     tr_appId b = Some appId -> tr_appCertificate b = Some appCertificate ->
     tr_channelName b = Some channelName ->
     truthy appId && truthy appCertificate && truthy channelName = true ->
     (app_id_pattern_test appId = false ->
        POST sign now (inr b) = mk_response 400 (RError app_id_format)) /\
     (app_id_pattern_test appId = true ->
        forall res,
        sign appId appCertificate channelName (uid_num (tr_uid b))
          (if String.eqb (match tr_role b with Some x => x | None => "audience" end)
                "publisher" then PUBLISHER else SUBSCRIBER)
          (inject_Z (now / 1000) +
             match tr_expireTimeInSeconds b with Some x => x | None => 3600 end)
          (inject_Z (now / 1000) +
             match tr_expireTimeInSeconds b with Some x => x | None => 3600 end) = res ->
        POST sign now (inr b) =
          match res with
          | inl tok =>
              mk_response 200
                (RToken tok (uid_num (tr_uid b)) channelName
                   (match tr_role b with Some x => x | None => "audience" end)
                   (inject_Z (now / 1000) +
                      match tr_expireTimeInSeconds b with Some x => x | None => 3600 end)
                   (now / 1000))
          | inr ex => mk_response 500 (RFailure "Failed to generate token" (details ex))
          end)) /\
  (forall s, uid_num (Some (BUStr s)) =
             match parseInt s with Some z => inject_Z z | None => 0 end) /\
  (forall q, uid_num (Some (BUNum q)) == q) /\
  uid_num None = 0.
Proof.
  intros sign now b. split; [|split; [|split; [|split]]].
  - unfold POST.
    destruct (tr_appId b) as [a|], (tr_appCertificate b) as [c|],
             (tr_channelName b) as [ch|]; simpl; intros H; try reflexivity.
    rewrite H. reflexivity.
  - intros a c ch Ha Hc Hch Ht. unfold POST. rewrite Ha, Hc, Hch, Ht. simpl.
    split.
    + intros Hp. rewrite Hp. reflexivity.
    + intros Hp res Hres. rewrite Hp. simpl. rewrite Hres. reflexivity.
  - intros s. simpl. destruct (parseInt s) as [z|]; [|reflexivity].
    destruct (Z.eqb_spec z 0); [subst; reflexivity | reflexivity].
  - intros q. simpl. destruct (Qeq_bool q 0) eqn:H.
    + apply Qeq_bool_iff in H. rewrite H. reflexivity.
    + reflexivity.
  - reflexivity.
Qed.

Lemma POST_contract_witness :
  POST sample_signer 1700000000000 (inr (sample_body (Some (BUStr "42abc")))) =
  mk_response 200 (RToken "007signed" 42 "demo" "audience"
                     (inject_Z 1700000000 + 3600) 1700000000).
Proof.
  rewrite (proj2 (proj1 (proj2 (POST_contract sample_signer 1700000000000
     (sample_body (Some (BUStr "42abc")))))
     "0123456789abcdef0123456789ABCDEF" "cert" "demo" eq_refl eq_refl eq_refl eq_refl)
     eq_refl (inl "007signed") eq_refl).
  reflexivity.
Defined.

(** C8 (counterexample): a numeric [uid] is not coerced to an integer: the
    body [uid: 1.5] is signed and answered with uid 1.5. *)
Lemma POST_numeric_uid_not_integer :
  POST sample_signer 1700000000000 (inr (sample_body (Some (BUNum (3 # 2))))) =
  mk_response 200 (RToken "007signed" (3 # 2) "demo" "audience"
                     (inject_Z 1700000000 + 3600) 1700000000) /\
  forall z : Z, ~ (3 # 2 == inject_Z z).
Proof.
  split; [reflexivity|].
  intros z H. unfold Qeq in H. simpl in H. lia.
Qed.

End EndpointFacts.

(* ================================================================== *)
(** * Further properties of the code *)

(** ** String facts *)

Lemma pattern_length : forall s,
  app_id_pattern_test s = true -> String.length s = 32.
Proof.
  intros s H. unfold app_id_pattern_test in H.
  apply andb_prop in H as [H _]. apply Nat.eqb_eq in H. exact H.
Qed.

Lemma pattern_truthy : forall s, app_id_pattern_test s = true -> truthy s = true.
Proof.
  intros s H. apply pattern_length in H. destruct s; [discriminate|reflexivity].
Qed.

Lemma pattern_hex : forall s,
  app_id_pattern_test s = true -> all_chars is_hex_char s = true.
Proof.
  intros s H. unfold app_id_pattern_test in H. apply andb_prop in H as [_ H]. exact H.
Qed.

(** A hexadecimal digit is neither white space, nor a sign, nor [x]/[X]. *)
Lemma hex_char_facts : forall c, is_hex_char c = true ->
  is_js_space c = false /\ Ascii.eqb c "-" = false /\ Ascii.eqb c "+" = false /\
  Ascii.eqb c "x" = false /\ Ascii.eqb c "X" = false.
Proof.
  intros [[] [] [] [] [] [] [] []]; vm_compute; intros H;
    try discriminate H; repeat split.
Qed.

Lemma string_app_nil_r : forall s : string, (s ++ "")%string = s.
Proof. induction s as [|c s IH]; simpl; [reflexivity | rewrite IH; reflexivity]. Qed.

Lemma string_app_assoc : forall s1 s2 s3 : string,
  ((s1 ++ s2) ++ s3)%string = (s1 ++ (s2 ++ s3))%string.
Proof. induction s1 as [|c s IH]; intros; simpl; [reflexivity | rewrite IH; reflexivity]. Qed.

Lemma rev_string_app : forall s1 s2,
  rev_string (s1 ++ s2) = (rev_string s2 ++ rev_string s1)%string.
Proof.
  induction s1 as [|c s IH]; intros s2; simpl.
  - rewrite string_app_nil_r. reflexivity.
  - rewrite IH, string_app_assoc. reflexivity.
Qed.

Lemma rev_string_involutive : forall s, rev_string (rev_string s) = s.
Proof.
  induction s as [|c s IH]; simpl; [reflexivity|].
  rewrite rev_string_app, IH. reflexivity.
Qed.

Lemma all_chars_app : forall p s1 s2,
  all_chars p (s1 ++ s2) = all_chars p s1 && all_chars p s2.
Proof.
  induction s1 as [|c s IH]; intros s2; simpl; [reflexivity|].
  rewrite IH, andb_assoc. reflexivity.
Qed.

Lemma all_chars_rev : forall p s, all_chars p (rev_string s) = all_chars p s.
Proof.
  induction s as [|c s IH]; simpl; [reflexivity|].
  rewrite all_chars_app, IH. simpl. rewrite andb_true_r, andb_comm. reflexivity.
Qed.

Lemma trim_start_hex : forall s, all_chars is_hex_char s = true -> trim_start s = s.
Proof.
  intros [|c s] H; [reflexivity|]. simpl in H. apply andb_prop in H as [Hc _].
  simpl. destruct (hex_char_facts c Hc) as [-> _]. reflexivity.
Qed.

(** [s.trim()] leaves a string of hexadecimal digits as it is. *)
Lemma trim_hex : forall s, all_chars is_hex_char s = true -> trim s = s.
Proof.
  intros s H. unfold trim. rewrite (trim_start_hex s H).
  rewrite (trim_start_hex (rev_string s)) by (rewrite all_chars_rev; exact H).
  apply rev_string_involutive.
Qed.

Lemma pattern_trim : forall s, app_id_pattern_test s = true -> trim s = s.
Proof. intros s H. apply trim_hex, pattern_hex, H. Qed.

(** ** Decimal rendering and [parseInt] *)

Lemma decimal_digit : forall d, (0 <= d < 10)%Z ->
  is_hex_char (ascii_of_nat (48 + Z.to_nat d)) = true /\
  TokenEndpoint.digit_value (ascii_of_nat (48 + Z.to_nat d)) = Some d.
Proof.
  intros d Hd.
  assert (d = 0 \/ d = 1 \/ d = 2 \/ d = 3 \/ d = 4 \/ d = 5 \/ d = 6 \/ d = 7 \/
          d = 8 \/ d = 9)%Z as Hc by lia.
  repeat destruct Hc as [-> | Hc]; try (subst d); split; reflexivity.
Qed.

Lemma digits_aux_S : forall f n acc,
  digits_aux (S f) n acc =
  if Z.eqb (n / 10) 0 then String (ascii_of_nat (48 + Z.to_nat (n mod 10))) acc
  else digits_aux f (n / 10) (String (ascii_of_nat (48 + Z.to_nat (n mod 10))) acc).
Proof. reflexivity. Qed.

Lemma digits_aux_shape : forall f n acc,
  all_chars is_hex_char acc = true ->
  exists c r, digits_aux (S f) n acc = String c r /\
              is_hex_char c = true /\ all_chars is_hex_char r = true.
Proof.
  induction f as [|f IH]; intros n acc Hacc;
    destruct (decimal_digit (n mod 10)) as [Hd _]; try (apply Z.mod_pos_bound; lia);
    rewrite digits_aux_S; set (dch := ascii_of_nat (48 + Z.to_nat (n mod 10))) in *.
  - exists dch, acc. destruct (Z.eqb (n / 10) 0); auto.
  - destruct (Z.eqb (n / 10) 0).
    + exists dch, acc. auto.
    + apply IH. cbn [all_chars]. rewrite Hd, Hacc. reflexivity.
Qed.

Lemma digits_aux_value : forall f n acc o,
  (0 <= n < 10 ^ Z.of_nat (S f))%Z ->
  exists k, (0 <= k)%Z /\
    TokenEndpoint.digits_prefix 10 (digits_aux (S f) n acc) o =
    TokenEndpoint.digits_prefix 10 acc
      (Some ((match o with Some a => a | None => 0 end) * 10 ^ k + n)%Z).
Proof.
  induction f as [|f IH]; intros n acc o Hn;
    destruct (decimal_digit (n mod 10)) as [_ Hv]; try (apply Z.mod_pos_bound; lia);
    assert (Hlt : (n mod 10 <? 10)%Z = true)
      by (apply Z.ltb_lt; apply Z.mod_pos_bound; lia);
    rewrite digits_aux_S; set (dch := ascii_of_nat (48 + Z.to_nat (n mod 10))) in *.
  - assert (Hq : (n / 10 = 0)%Z) by (apply Z.div_small; simpl in Hn; lia).
    assert (Hm : (n mod 10 = n)%Z) by (apply Z.mod_small; simpl in Hn; lia).
    exists 1%Z. split; [lia|]. rewrite Hq. cbn [Z.eqb].
    cbn [TokenEndpoint.digits_prefix]. rewrite Hv, Hlt.
    destruct o; f_equal; f_equal; lia.
  - destruct (Z.eqb_spec (n / 10) 0) as [Hq | Hq].
    + assert (Hm : (n mod 10 = n)%Z).
      { pose proof (Z.div_mod n 10 ltac:(lia)). lia. }
      exists 1%Z. split; [lia|].
      cbn [TokenEndpoint.digits_prefix]. rewrite Hv, Hlt.
      destruct o; f_equal; f_equal; lia.
    + destruct (IH (n / 10)%Z (String dch acc) o) as [k [Hk Heq]].
      { split; [apply Z.div_pos; lia|].
        apply Z.div_lt_upper_bound; [lia|].
        rewrite Nat2Z.inj_succ, Z.pow_succ_r in Hn by lia. lia. }
      exists (k + 1)%Z. split; [lia|]. rewrite Heq.
      cbn [TokenEndpoint.digits_prefix]. rewrite Hv, Hlt.
      f_equal. f_equal. rewrite Z.pow_add_r by lia.
      pose proof (Z.div_mod n 10 ltac:(lia)). lia.
Qed.

Lemma Z_to_dec_digits : forall n, (0 <= n)%Z ->
  exists c r, digits_aux (S (Z.to_nat (Z.log2 n))) n "" = String c r /\
    is_hex_char c = true /\ all_chars is_hex_char r = true /\
    TokenEndpoint.digits_prefix 10 (String c r) None = Some n.
Proof.
  intros n Hn.
  destruct (digits_aux_shape (Z.to_nat (Z.log2 n)) n "" eq_refl) as (c & r & Hd & Hc & Hr).
  exists c, r. split; [exact Hd|]. split; [exact Hc|]. split; [exact Hr|].
  destruct (digits_aux_value (Z.to_nat (Z.log2 n)) n "" None) as [k [_ Hv]].
  - split; [exact Hn|].
    rewrite Nat2Z.inj_succ, Z2Nat.id by apply Z.log2_nonneg.
    destruct (Z.eq_dec n 0) as [->|Hn0]; [reflexivity|].
    apply Z.lt_le_trans with (2 ^ Z.succ (Z.log2 n))%Z.
    + apply Z.log2_spec. lia.
    + apply Z.pow_le_mono_l. lia.
  - rewrite <- Hd, Hv. simpl. f_equal; try lia.
Qed.

(** X6: [parseInt] reads back the decimal rendering [String(n)] of every
    safe integer [n] (|n| < 2^53), sign included: a numeric uid the client
    sends as [uid.toString()] is the number the GET endpoint signs for. *)
Theorem parseInt_Z_to_dec : forall z, (Z.abs z < 2 ^ 53)%Z ->
  TokenEndpoint.parseInt (Z_to_dec z) = Some z.
Proof.
  intros z _.
  destruct (Z_to_dec_digits (Z.abs z) (Z.abs_nonneg z)) as (c & r & Hd & Hc & Hr & Hv).
  destruct (hex_char_facts c Hc) as (Hsp & Hm & Hp & Hx & HX).
  assert (Hr' : r = EmptyString \/ exists c1 r', r = String c1 r' /\
            Ascii.eqb c1 "x" = false /\ Ascii.eqb c1 "X" = false).
  { destruct r as [|c1 r']; [left; reflexivity|right].
    simpl in Hr. apply andb_prop in Hr as [Hc1 _].
    destruct (hex_char_facts c1 Hc1) as (_ & _ & _ & Hx1 & HX1).
    exists c1, r'. auto. }
  assert (Hdash : is_js_space "-" = false) by reflexivity.
  assert (Hdd : Ascii.eqb "-" "-" = true) by reflexivity.
  unfold TokenEndpoint.parseInt, Z_to_dec. rewrite Hd.
  destruct Hr' as [-> | (c1 & r' & -> & Hx1 & HX1)];
    destruct (Z.ltb_spec z 0) as [Hneg | Hpos]; cbn [String.append trim_start];
    rewrite ?Hdash, ?Hsp, ?Hdd, ?Hm, ?Hp; cbv beta iota zeta;
    rewrite ?Hx1, ?HX1, ?andb_false_r; cbv beta iota zeta;
    rewrite Hv; cbn [option_map]; f_equal; lia.
Qed.

Lemma parseInt_Z_to_dec_witness :
  (Z.abs (-1230) < 2 ^ 53)%Z /\ TokenEndpoint.parseInt (Z_to_dec (-1230)) = Some (-1230)%Z.
Proof.
  split; [reflexivity|]. apply (parseInt_Z_to_dec (-1230)%Z). reflexivity.
Defined.

(** ** The token route, served and called *)

Module RouteFacts.
Import QArith TokenRoute.

Lemma uid_or_zero_num_or_else : forall s,
  TokenEndpointGet.uid_or_zero_num (or_else s "0") = TokenEndpointGet.uid_or_zero_num s.
Proof.
  intros s. unfold or_else. destruct (truthy s) eqn:E; [reflexivity|].
  unfold truthy in E. apply negb_false_iff, String.eqb_eq in E. subst s. reflexivity.
Qed.

(** X1: the GET handler answers 400 "App ID, App Certificate, and Channel
    Name are required" when [appId], [appCertificate] or [channel] is
    absent or empty, and otherwise 400 with the App ID format message when
    [appId], untrimmed, is not 32 hexadecimal characters; the answer is the
    same whatever the signing primitive. *)
Theorem GET_validation : forall sign now q,
  (opt_truthy (lookup_first "appId" q) && opt_truthy (lookup_first "appCertificate" q)
     && opt_truthy (lookup_first "channel" q) = false ->
   TokenEndpointGet.GET sign now q =
   TokenEndpointGet.mk_get_response 400
     (TokenEndpointGet.GError TokenEndpoint.fields_required)) /\
  (forall a, lookup_first "appId" q = Some a -> truthy a = true ->
   opt_truthy (lookup_first "appCertificate" q) && opt_truthy (lookup_first "channel" q) = true ->
   app_id_pattern_test a = false ->
   TokenEndpointGet.GET sign now q =
   TokenEndpointGet.mk_get_response 400
     (TokenEndpointGet.GError TokenEndpoint.app_id_format)).
Proof.
  intros sign now q. unfold TokenEndpointGet.GET. split.
  - destruct (lookup_first "appId" q) as [a|]; [|reflexivity].
    destruct (lookup_first "appCertificate" q) as [c|]; [|reflexivity].
    destruct (lookup_first "channel" q) as [ch|]; [|reflexivity].
    simpl. intros H. rewrite H. reflexivity.
  - intros a Ha Hta H Hp. rewrite Ha.
    destruct (lookup_first "appCertificate" q) as [c|]; [|discriminate].
    destruct (lookup_first "channel" q) as [ch|]; [|rewrite andb_false_r in H; discriminate].
    simpl in H. rewrite Hta. cbn [andb]. rewrite H, Hp. reflexivity.
Qed.

Lemma GET_validation_witness :
  lookup_first "appId" [("appId", "xyz"); ("appCertificate", "c"); ("channel", "demo")] = Some "xyz" /\
  TokenEndpointGet.GET TokenEndpoint.sample_signer 0
    [("appId", "xyz"); ("appCertificate", "c"); ("channel", "demo")] =
  TokenEndpointGet.mk_get_response 400 (TokenEndpointGet.GError TokenEndpoint.app_id_format).
Proof.
  split; [reflexivity|].
  apply (proj2 (GET_validation TokenEndpoint.sample_signer 0
    [("appId", "xyz"); ("appCertificate", "c"); ("channel", "demo")]) "xyz");
    reflexivity.
Defined.

(** The GET handler on the query [generateTokenFromServer] sends. *)
Lemma GET_on_server_query : forall sign now a c ch u r,
  TokenEndpointGet.GET sign now
    [("appId", a); ("appCertificate", c); ("channel", ch);
     ("uid", uid_to_string u); ("role", role_str r)] =
  if negb (truthy a && truthy c && truthy ch)
  then TokenEndpointGet.mk_get_response 400
         (TokenEndpointGet.GError TokenEndpoint.fields_required)
  else if negb (app_id_pattern_test a)
  then TokenEndpointGet.mk_get_response 400
         (TokenEndpointGet.GError TokenEndpoint.app_id_format)
  else
    match sign a c ch (inject_Z (TokenEndpointGet.uid_or_zero_num (uid_to_string u)))
            (rtc_role r) (inject_Z (now / 1000 + 3600)) (inject_Z (now / 1000 + 3600)) with
    | inl tok => TokenEndpointGet.mk_get_response 200 (TokenEndpointGet.GToken tok a)
    | inr ex => TokenEndpointGet.mk_get_response 500
                  (TokenEndpointGet.GFailure "Failed to generate token"
                     (TokenEndpoint.details ex))
    end.
Proof.
  intros. unfold TokenEndpointGet.GET. simpl lookup_first. cbv beta iota zeta.
  cbn [opt_or]. rewrite uid_or_zero_num_or_else.
  destruct r; reflexivity.
Qed.

(** X2: served by this repository's GET handler, [generateTokenFromServer]
    resolves to the token the signing primitive returns when called with
    the App ID, certificate and channel as sent, the uid as [parseInt] of
    its string form (or 0), the role [PUBLISHER] for a publisher and
    [SUBSCRIBER] for an audience member, and the expiry [now/1000 + 3600]
    for both privileges; it sends the one GET request and nothing else.
    The uid is a string or a safe integer, the numbers [String(n)] is
    modelled for. *)
Theorem generateTokenFromServer_served : forall sign now w a c ch u r s tok,
  uid_safe u = true ->
  app_id_pattern_test a = true -> truthy c = true -> truthy ch = true ->
  sign a c ch (inject_Z (TokenEndpointGet.uid_or_zero_num (uid_to_string u)))
    (rtc_role r) (inject_Z (now / 1000 + 3600)) (inject_Z (now / 1000 + 3600)) = inl tok ->
  generateTokenFromServer (with_token_route sign now w) a c ch u r s =
  (Ok (Some tok), add_event (EvFetch (server_request a c ch u r)) s).
Proof.
  intros sign now w a c ch u r s tok _ Ha Hc Hch Hs.
  unfold generateTokenFromServer, fetch. run.
  rewrite GET_on_server_query, (pattern_truthy a Ha), Hc, Hch, Ha, Hs.
  reflexivity.
Qed.
Lemma generateTokenFromServer_served_witness :
  generateTokenFromServer
    (with_token_route TokenEndpoint.sample_signer 1700000000000 example_world)
    hex_app_id "cert" "demo" (UNum 42) Audience publishing_state =
  (Ok (Some "007signed"),
   add_event (EvFetch (server_request hex_app_id "cert" "demo" (UNum 42) Audience))
     publishing_state).
Proof.
  apply (generateTokenFromServer_served TokenEndpoint.sample_signer 1700000000000
           example_world hex_app_id "cert" "demo" (UNum 42) Audience publishing_state
           "007signed"); reflexivity.
Defined.

(** The body [request.json()] yields for the POST [generateTokenFromBackend]
    sends, and the handler's answer to it. *)
Lemma decode_backend_body : forall a c ch u r e,
  match backend_request a c ch u r e with
  | POST _ b => decode_post_body b
  | GET _ _ => None
  end =
  Some (TokenEndpoint.mk_request (Some a) (Some c) (Some ch) (Some (body_uid_of u))
          (Some (role_str r)) (Some (inject_Z e))).
Proof. intros. destruct u; reflexivity. Qed.

Lemma POST_on_backend_body : forall sign now a c ch u r,
  TokenEndpoint.POST sign now
    (inr (TokenEndpoint.mk_request (Some a) (Some c) (Some ch) (Some (body_uid_of u))
            (Some (role_str r)) (Some (inject_Z 3600)))) =
  if negb (truthy a && truthy c && truthy ch)
  then TokenEndpoint.mk_response 400 (TokenEndpoint.RError TokenEndpoint.fields_required)
  else if negb (app_id_pattern_test a)
  then TokenEndpoint.mk_response 400 (TokenEndpoint.RError TokenEndpoint.app_id_format)
  else
    match sign a c ch (TokenEndpoint.uid_num (Some (body_uid_of u))) (rtc_role r)
            (inject_Z (now / 1000) + inject_Z 3600) (inject_Z (now / 1000) + inject_Z 3600)
    with
    | inl tok =>
        TokenEndpoint.mk_response 200
          (TokenEndpoint.RToken tok (TokenEndpoint.uid_num (Some (body_uid_of u))) ch
             (role_str r) (inject_Z (now / 1000) + inject_Z 3600) (now / 1000))
    | inr ex =>
        TokenEndpoint.mk_response 500
          (TokenEndpoint.RFailure "Failed to generate token" (TokenEndpoint.details ex))
    end.
Proof. intros. destruct r; reflexivity. Qed.

Lemma backend_fetch : forall sign now w a c ch u r,
  w_fetch (with_token_route sign now w) (backend_request a c ch u r 3600) =
  post_to_client (TokenEndpoint.POST sign now
    (inr (TokenEndpoint.mk_request (Some a) (Some c) (Some ch) (Some (body_uid_of u))
            (Some (role_str r)) (Some (inject_Z 3600))))).
Proof.
  intros. pose proof (decode_backend_body a c ch u r 3600) as H.
  simpl in H |- *. rewrite H. reflexivity.
Qed.

Lemma server_fetch : forall sign now w a c ch u r,
  w_fetch (with_token_route sign now w) (server_request a c ch u r) =
  get_to_client (TokenEndpointGet.GET sign now
    [("appId", a); ("appCertificate", c); ("channel", ch);
     ("uid", uid_to_string u); ("role", role_str r)]).
Proof. reflexivity. Qed.

(** X3: served by this repository's POST handler, [generateTokenFromBackend]
    resolves to the token the signing primitive returns when called with
    the App ID, certificate and channel as sent, the uid as the handler
    reads it from the JSON body, the role mapped as by the GET handler, and
    the expiry [now/1000 + 3600] the client asks for, for both privileges;
    it sends the one POST request and nothing else. *)
Theorem generateTokenFromBackend_served : forall sign now w a c ch u r s tok,
  app_id_pattern_test a = true -> truthy c = true -> truthy ch = true ->
  sign a c ch (TokenEndpoint.uid_num (Some (body_uid_of u))) (rtc_role r)
    (inject_Z (now / 1000) + inject_Z 3600) (inject_Z (now / 1000) + inject_Z 3600)
    = inl tok ->
  generateTokenFromBackend (with_token_route sign now w) a c ch u r s =
  (Ok (Some tok), add_event (EvFetch (backend_request a c ch u r 3600)) s).
Proof.
  intros sign now w a c ch u r s tok Ha Hc Hch Hs.
  unfold generateTokenFromBackend, fetch. cbv [bind ret throw try_catch get modify emit].
  rewrite backend_fetch, POST_on_backend_body, (pattern_truthy a Ha), Hc, Hch, Ha, Hs.
  reflexivity.
Qed.

Lemma generateTokenFromBackend_served_witness :
  generateTokenFromBackend
    (with_token_route TokenEndpoint.sample_signer 1700000000000 example_world)
    hex_app_id "cert" "demo" (UNum 42) Publisher publishing_state =
  (Ok (Some "007signed"),
   add_event (EvFetch (backend_request hex_app_id "cert" "demo" (UNum 42) Publisher 3600))
     publishing_state).
Proof.
  apply (generateTokenFromBackend_served TokenEndpoint.sample_signer 1700000000000
           example_world hex_app_id "cert" "demo" (UNum 42) Publisher publishing_state
           "007signed"); reflexivity.
Defined.

(** X4: both token requests are refused by the handlers they reach, and
    the client throws the handler's own message: "App ID, App Certificate,
    and Channel Name are required" when the App ID, the certificate or the
    channel is empty, else the App ID format message when the App ID is
    not 32 hexadecimal characters. *)
Theorem token_route_rejections : forall sign now w a c ch u r s,
  (truthy a && truthy c && truthy ch = false ->
   fst (generateTokenFromServer (with_token_route sign now w) a c ch u r s) =
     Throw (js_error TokenEndpoint.fields_required) /\
   fst (generateTokenFromBackend (with_token_route sign now w) a c ch u r s) =
     Throw (js_error TokenEndpoint.fields_required)) /\
  (truthy a && truthy c && truthy ch = true -> app_id_pattern_test a = false ->
   fst (generateTokenFromServer (with_token_route sign now w) a c ch u r s) =
     Throw (js_error TokenEndpoint.app_id_format) /\
   fst (generateTokenFromBackend (with_token_route sign now w) a c ch u r s) =
     Throw (js_error TokenEndpoint.app_id_format)).
Proof.
  intros sign now w a c ch u r s.
  unfold generateTokenFromServer, generateTokenFromBackend, fetch, http_error, json, deref.
  cbv [bind ret throw try_catch get modify emit rethrow].
  rewrite server_fetch, backend_fetch, GET_on_server_query, POST_on_backend_body.
  split.
  - intros H. rewrite H. split; reflexivity.
  - intros H Hp. rewrite H, Hp. split; reflexivity.
Qed.

Lemma token_route_rejections_witness :
  truthy "xyz" && truthy "cert" && truthy "demo" = true /\
  app_id_pattern_test "xyz" = false /\
  fst (generateTokenFromServer (with_token_route TokenEndpoint.sample_signer 0 example_world)
         "xyz" "cert" "demo" (UNum 0) Audience publishing_state) =
    Throw (js_error TokenEndpoint.app_id_format).
Proof.
  split; [reflexivity|]. split; [reflexivity|].
  apply (proj2 (token_route_rejections TokenEndpoint.sample_signer 0 example_world
    "xyz" "cert" "demo" (UNum 0) Audience publishing_state)); reflexivity.
Defined.

(** X5: when the signing primitive throws, the GET path makes the client
    throw the thrown [Error]'s message ("Unknown error" for another value,
    "HTTP 500" for an empty message), while the POST path makes it throw
    "Failed to generate token": the POST handler's [details] never reach
    the caller. *)
Theorem token_route_signing_failure : forall sign ex now w a c ch u r s,
  (forall a1 a2 a3 a4 a5 a6 a7, sign a1 a2 a3 a4 a5 a6 a7 = inr ex) ->
  app_id_pattern_test a = true -> truthy c = true -> truthy ch = true ->
  fst (generateTokenFromServer (with_token_route sign now w) a c ch u r s) =
    Throw (js_error (or_else (TokenEndpoint.details ex) "HTTP 500")) /\
  fst (generateTokenFromBackend (with_token_route sign now w) a c ch u r s) =
    Throw (js_error "Failed to generate token").
Proof.
  intros sign ex now w a c ch u r s Hs Ha Hc Hch.
  unfold generateTokenFromServer, generateTokenFromBackend, fetch, http_error, json, deref.
  cbv [bind ret throw try_catch get modify emit rethrow].
  rewrite server_fetch, backend_fetch, GET_on_server_query, POST_on_backend_body.
  rewrite (pattern_truthy a Ha), Hc, Hch, Ha, !Hs.
  split; reflexivity.
Qed.

Lemma token_route_signing_failure_witness :
  fst (generateTokenFromServer
         (with_token_route (failing_signer "bad certificate") 0 example_world)
         hex_app_id "cert" "demo" (UNum 0) Audience publishing_state) =
    Throw (js_error "bad certificate") /\
  fst (generateTokenFromBackend
         (with_token_route (failing_signer "bad certificate") 0 example_world)
         hex_app_id "cert" "demo" (UNum 0) Audience publishing_state) =
    Throw (js_error "Failed to generate token").
Proof.
  exact (token_route_signing_failure (failing_signer "bad certificate")
           (TokenEndpoint.ThrownError "bad certificate") 0 example_world hex_app_id
           "cert" "demo" (UNum 0) Audience publishing_state
           (fun _ _ _ _ _ _ _ => eq_refl) eq_refl eq_refl eq_refl).
Defined.

End RouteFacts.

(** ** Saved credentials *)

Module CredentialFacts.
Import Credentials.

Lemma getItem_setItem_same : forall k v st, getItem k (setItem k v st) = Some v.
Proof. intros. unfold getItem, setItem. simpl. rewrite String.eqb_refl. reflexivity. Qed.

Lemma getItem_setItem_other : forall k k' v st,
  String.eqb k k' = false -> getItem k' (setItem k v st) = getItem k' st.
Proof.
  intros k k' v st Hk. unfold getItem, setItem. simpl. rewrite Hk.
  induction st as [|[k0 v0] st IH]; simpl; [reflexivity|].
  destruct (String.eqb k0 k) eqn:E0; simpl.
  - apply String.eqb_eq in E0. subst k0. rewrite Hk. exact IH.
  - destruct (String.eqb k0 k'); [reflexivity | exact IH].
Qed.

(** X7: in a browser, loading the credentials after
    [saveAgoraCredentials(appId, appCertificate)] gives [appId] (or, when
    it is empty, the build-time App ID, else [""]) and [appCertificate]
    when it is non-empty, else the certificate that would have been loaded
    before; without a window nothing is stored and the build-time values
    (else [""]) are loaded. *)
Theorem save_then_load : forall hw e st a oc,
  loadAgoraCredentials hw e (saveAgoraCredentials hw a oc st) =
  if hw then
    mk_credentials (or_else a (opt_or (NEXT_PUBLIC_AGORA_APP_ID e) ""))
      (opt_or oc (appCertificate (loadAgoraCredentials true e st)))
  else
    mk_credentials (opt_or (NEXT_PUBLIC_AGORA_APP_ID e) "")
      (opt_or (NEXT_PUBLIC_AGORA_APP_CERTIFICATE e) "").
Proof.
  intros [|] e st a oc; [|reflexivity].
  unfold loadAgoraCredentials, getOptionsFromLocal, saveAgoraCredentials.
  cbn [negb]. cbv beta iota zeta. cbn [appid certificate appCertificate].
  destruct oc as [c|]; [destruct (truthy c) eqn:Hc|].
  - rewrite (getItem_setItem_other "agora_app_certificate" "agora_app_id") by reflexivity.
    rewrite !getItem_setItem_same. cbn [opt_or]. unfold or_else. rewrite Hc.
    reflexivity.
  - rewrite (getItem_setItem_same "agora_app_id").
    rewrite (getItem_setItem_other "agora_app_id" "agora_app_certificate") by reflexivity.
    cbn [opt_or]. unfold or_else. rewrite Hc. reflexivity.
  - rewrite (getItem_setItem_same "agora_app_id").
    rewrite (getItem_setItem_other "agora_app_id" "agora_app_certificate") by reflexivity.
    reflexivity.
Qed.

End CredentialFacts.

(** ** App ID checks of the pages *)

(** X8: the join form's [isValidAppId] accepts exactly the App IDs that
    pass [join]'s App ID checks (not blank, and 32 hexadecimal characters
    once trimmed). *)
Theorem isValidAppId_matches_join : forall id,
  Pages.isValidAppId id = negb (blank id) && app_id_pattern_test (trim id).
Proof.
  intros id. unfold Pages.isValidAppId.
  destruct (app_id_pattern_test (trim id)) eqn:Hp; [|rewrite andb_false_r; reflexivity].
  rewrite andb_true_r. unfold blank.
  assert (Ht : String.eqb (trim id) "" = false).
  { apply pattern_length in Hp. destruct (trim id); [discriminate|reflexivity]. }
  rewrite Ht, orb_false_r.
  destruct id as [|c r]; [discriminate Hp | reflexivity].
Qed.

(** X9: an App ID the video page accepts from its query string passes
    [join]'s App ID checks unchanged (it is not blank, [trim] leaves it as
    it is, and it is 32 hexadecimal characters), and the certificate and
    channel it passes on are non-empty. *)
Theorem VideoPage_params_accepted : forall q a c ch u,
  Pages.VideoPage_params q = Pages.PageJoin a c ch u ->
  blank a = false /\ trim a = a /\ app_id_pattern_test (trim a) = true /\
  truthy c = true /\ truthy ch = true.
Proof.
  intros q a c ch u H. unfold Pages.VideoPage_params in H.
  destruct (lookup_first "appId" q) as [a0|]; [|discriminate].
  destruct (lookup_first "cert" q) as [c0|]; [|discriminate].
  destruct (lookup_first "channel" q) as [ch0|]; [|discriminate].
  destruct (truthy a0 && truthy c0 && truthy ch0) eqn:Ht; [|discriminate].
  destruct (app_id_pattern_test a0) eqn:Hp; [|discriminate].
  simpl in H. injection H as <- <- <- _.
  apply andb_prop in Ht as [Ht Hch]. apply andb_prop in Ht as [Ha Hc].
  assert (Htr : trim a0 = a0) by (apply pattern_trim, Hp).
  rewrite Htr. repeat split; auto.
  unfold blank. rewrite Ha, Htr. simpl.
  apply pattern_length in Hp. destruct a0; [discriminate|reflexivity].
Qed.

Lemma VideoPage_params_accepted_witness :
  Pages.VideoPage_params [("appId", hex_app_id); ("cert", "c"); ("channel", "demo")] =
    Pages.PageJoin hex_app_id "c" "demo" "" /\
  blank hex_app_id = false /\ trim hex_app_id = hex_app_id.
Proof.
  split; [reflexivity|].
  destruct (VideoPage_params_accepted
    [("appId", hex_app_id); ("cert", "c"); ("channel", "demo")] hex_app_id "c" "demo" ""
    eq_refl) as (H1 & H2 & _).
  split; assumption.
Defined.

(** ** Audience and publisher sessions *)

Ltac frame_side :=
  let st := fresh "st" in
  let Hp := fresh "Hp" in let Hv := fresh "Hv" in let Ha := fresh "Ha" in
  let tail := fresh "tail" in let Ht := fresh "Ht" in let Hn := fresh "Hn" in
  intros st (Hp & Hv & Ha & tail & Ht & Hn);
  first
  [ refine (conj Hp (conj Hv (conj Ha (ex_intro _ tail (conj Ht Hn))))); fail
  | refine (conj Hp (conj Hv (conj Ha (ex_intro _ (tail ++ [_])%list (conj _ _)))));
      [ cbn [add_event s_trace]; rewrite Ht, app_assoc; reflexivity
      | rewrite forallb_app, Hn; reflexivity ] ].

Lemma createAndPublishTracks_audience : forall w v a tr0,
  preserves (audience_frame v a tr0) (createAndPublishTracks w).
Proof.
  intros w v a tr0 s HP. pose proof HP as (Hp & _).
  unfold createAndPublishTracks. cbv [bind get ret]. rewrite Hp, orb_true_r.
  exact HP.
Qed.

Lemma join_audience_frame : forall w v a tr0,
  preserves (audience_frame v a tr0) (join w Audience).
Proof.
  intros w v a tr0.
  unfold join, initClient, setupEventListeners, generateToken, generateTokenFromServer,
    generateTokenFromBackend, agoraGetAppData, http_error, fetch, json, deref.
  preserves_tac frame_side.
  all: apply createAndPublishTracks_audience.
Qed.

Lemma joinAsAudience_frame : forall w s,
  audience_frame (s_video s) (s_audio s) (s_trace s) (snd (joinAsAudience w s)).
Proof.
  intros w s.
  change (snd (joinAsAudience w s)) with (snd (join w Audience (set_pub false s))).
  apply join_audience_frame.
  split; [reflexivity|]. split; [reflexivity|]. split; [reflexivity|].
  exists []. split; [symmetry; apply app_nil_r | reflexivity].
Qed.

(** X10: [joinAsAudience()], whatever it meets, never creates or publishes
    a local track: afterwards the session is not a publisher, holds the
    local tracks it held before, and the engine calls it made include no
    track creation and no publish. *)
Theorem joinAsAudience_no_local_media : forall w s,
  s_pub (snd (joinAsAudience w s)) = false /\
  s_video (snd (joinAsAudience w s)) = s_video s /\
  s_audio (snd (joinAsAudience w s)) = s_audio s /\
  exists tail, s_trace (snd (joinAsAudience w s)) = (s_trace s ++ tail)%list /\
    forallb (fun e => negb (is_local_media e)) tail = true.
Proof. intros w s. exact (joinAsAudience_frame w s). Qed.

(** X11: a publisher joining with a supplied token, on a session that
    holds a client or in a browser where [initClient] creates one, once the
    engine has admitted it and both local tracks are created, has created
    the microphone track, then the camera track, then published both; the
    session holds the client and both tracks whether the publish succeeds
    or fails, and a failed publish surfaces as [join]'s rewrapped error.
    No token is requested. *)
Theorem joinAsPublisher_tracks_held : forall w s t j,
  blank (appId (s_config s)) = false ->
  blank (channel (s_config s)) = false ->
  app_id_pattern_test (trim (appId (s_config s))) = true ->
  s_client s <> None \/ w_has_window w = true ->
  token (s_config s) = Some t -> truthy t = true ->
  w_engine_join w (trim (appId (s_config s))) (trim (channel (s_config s)))
    (Some t) (uid_or_null (uid (s_config s))) = Ok j ->
  w_create_track w Audio = Ok tt -> w_create_track w Video = Ok tt ->
  joinAsPublisher w s =
  (match w_publish w with
   | Ok _ => Ok tt
   | Throw e => Throw (js_error (join_error_message e))
   end,
   mk_state (s_config s)
     (Some (match s_client s with Some h => h | None => Handle "rtc" "vp8" end))
     true true true
     (s_trace s ++
      match s_client s with
      | Some _ => []
      | None => [EvCreateClient "rtc" "vp8"; EvOn "user-published";
                 EvOn "user-unpublished"; EvOn "user-left";
                 EvOn "connection-state-change"]
      end ++
      [EvJoin (trim (appId (s_config s))) (trim (channel (s_config s))) (Some t)
         (uid_or_null (uid (s_config s)));
       EvCreateTrack Audio; EvCreateTrack Video; EvPublish] ++
      (if is_ok (w_publish w) && w_has_local_player w then [EvPlay Video] else []))%list).
Proof.
  intros w s t j Ha Hc Hp Hcl Ht Htr Hj HA HV.
  unfold joinAsPublisher, join, initClient, setupEventListeners,
    createAndPublishTracks, create_track. run.
  rewrite Ha, Hc, Hp. simpl.
  destruct (s_client s) as [h|] eqn:E.
  - run. rewrite ?E.
    rewrite Ht. unfold opt_truthy. rewrite Htr. rewrite Hj. run. rewrite HA, HV. run.
    destruct (w_publish w) as [[]|e]; destruct (w_has_local_player w); run;
      rewrite <- ?app_assoc; reflexivity.
  - destruct Hcl as [Hcl|Hw]; [contradiction|]. rewrite Hw. run.
    rewrite Ht. unfold opt_truthy. rewrite Htr. rewrite Hj. run. rewrite HA, HV. run.
    destruct (w_publish w) as [[]|e]; destruct (w_has_local_player w); run;
      rewrite <- ?app_assoc; reflexivity.
Qed.

Lemma joinAsPublisher_tracks_held_witness :
  joinAsPublisher example_world (new_AgoraClient (example_config (Some "007tok") None)) =
  (Ok tt,
   mk_state (s_config (new_AgoraClient (example_config (Some "007tok") None)))
     (Some (Handle "rtc" "vp8")) true true true
     [EvCreateClient "rtc" "vp8"; EvOn "user-published"; EvOn "user-unpublished";
      EvOn "user-left"; EvOn "connection-state-change";
      EvJoin hex_app_id "demo" (Some "007tok") None;
      EvCreateTrack Audio; EvCreateTrack Video; EvPublish; EvPlay Video]).
Proof.
  apply (joinAsPublisher_tracks_held example_world
           (new_AgoraClient (example_config (Some "007tok") None)) "007tok" 1%Z);
    try reflexivity; right; reflexivity.
Defined.

(** ** The audience hook *)

Module HookFacts.
Import AudienceHook.

(** A hook that has just joined holds a session with no local tracks. *)
Lemma joinChannel_joined_session : forall w p t,
  isJoined (joinChannel w p t initial) = true ->
  exists s, client (joinChannel w p t initial) = Some s /\
    s_video s = false /\ s_audio s = false /\
    joinChannel w p t initial = mk_hook (Some s) true false None.
Proof.
  intros w p t H. unfold joinChannel in *. cbn [initial isJoining isJoined orb] in *.
  pose proof (joinAsAudience_frame w (new_AgoraClient (join_config p t))) as (_ & Hv & Ha & _).
  destruct (joinAsAudience w (new_AgoraClient (join_config p t))) as [[u|e] s] eqn:E;
    [|discriminate H].
  exists s. cbn [snd] in Hv, Ha. repeat split; assumption.
Qed.

(** X12: when the engine's [leave] succeeds, leaving right after a
    successful [joinChannel] on a fresh hook gives back the fresh hook: no
    client, not joined, not joining, no error. *)
Theorem hook_join_then_leave : forall w p t,
  w_engine_leave w = Ok tt ->
  isJoined (joinChannel w p t initial) = true ->
  leaveChannel w (joinChannel w p t initial) = initial.
Proof.
  intros w p t Hl Hj.
  destruct (joinChannel_joined_session w p t Hj) as (s & _ & Hv & Ha & E).
  rewrite E. unfold leaveChannel, leave. cbn [client isJoined negb].
  run. destruct (s_client s); [|reflexivity].
  rewrite Hv. run. rewrite Ha. run. rewrite Hl. reflexivity.
Qed.

Lemma hook_join_then_leave_witness :
  w_engine_leave example_world = Ok tt /\
  isJoined (joinChannel example_world (mk_props hex_app_id None "demo" None)
              (Some "007tok") initial) = true /\
  leaveChannel example_world
    (joinChannel example_world (mk_props hex_app_id None "demo" None)
       (Some "007tok") initial) = initial.
Proof.
  split; [reflexivity|]. split; [reflexivity|].
  apply hook_join_then_leave; reflexivity.
Defined.

(** X13: without a [window] no Agora client can be created, so a
    [joinChannel] on an idle hook always fails: the hook keeps its client,
    is neither joined nor joining, and reports the first validation error
    of the props or, when they are valid, that the client could not be
    initialised. *)
Theorem hook_join_without_window : forall w p t h,
  w_has_window w = false ->
  isJoining h || isJoined h = false ->
  joinChannel w p t h =
  mk_hook (client h) false false
    (Some (if blank (appId p) then "App ID is required and cannot be empty"
           else if blank (channel p) then "Channel name is required and cannot be empty"
           else if negb (app_id_pattern_test (trim (appId p))) then
             "Invalid App ID format. App ID should be a 32-character hexadecimal string."
           else "Failed to initialize Agora client")).
Proof.
  intros w p t h Hw Hb.
  pose proof Hb as Hb'. apply orb_false_iff in Hb' as [_ Hj].
  unfold joinChannel. rewrite Hb.
  unfold joinAsAudience, join, initClient. run.
  cbn [AudienceHook.appId AudienceHook.channel join_config] in *.
  rewrite Hw, Hj. cbn [negb].
  destruct (blank (appId p)); [reflexivity|].
  destruct (blank (channel p)); [reflexivity|].
  destruct (app_id_pattern_test (trim (appId p))); reflexivity.
Qed.

Lemma hook_join_without_window_witness :
  joinChannel no_window_world (mk_props hex_app_id (Some "cert") "demo" None) None initial =
  mk_hook None false false (Some "Failed to initialize Agora client").
Proof.
  apply (hook_join_without_window no_window_world
           (mk_props hex_app_id (Some "cert") "demo" None) None initial);
    reflexivity.
Defined.

Lemma hook_step_consistent : forall h c,
  hook_consistent h -> hook_consistent (hook_step h c).
Proof.
  intros h c Hh. pose proof Hh as [Hc Hi]. destruct c as [w p t|w]; cbn [hook_step].
  - unfold joinChannel. rewrite Hi. cbn [orb].
    destruct (isJoined h) eqn:Ej; [exact Hh|].
    destruct (joinAsAudience w (new_AgoraClient (join_config p t))) as [[u|e] s].
    + split; [|reflexivity]. cbn [isJoined client]. split; [discriminate|reflexivity].
    + split; [|reflexivity]. cbn [isJoined client]. exact Hc.
  - unfold leaveChannel.
    destruct (client h) as [c|] eqn:Ec; [|exact Hh].
    destruct (isJoined h) eqn:Ej; cbn [negb]; [|exact Hh].
    destruct (leave w c) as [[u|e] c'].
    + split; [|exact Hi]. cbn [isJoined client]. split; [discriminate|].
      intros H; exfalso; exact (H eq_refl).
    + split; [|exact Hi]. cbn [isJoined client].
      split; [intros _; discriminate|reflexivity].
Qed.

(** X14: after any sequence of [joinChannel] and [leaveChannel] calls on a
    freshly mounted hook, each run to completion and each meeting its own
    engine and network answers and props, [isJoined] is true exactly when
    the hook holds a client, and [isJoining] is back to false. *)
Theorem hook_calls_consistent : forall calls,
  hook_consistent (run_calls calls initial).
Proof.
  intros calls. unfold run_calls.
  assert (H0 : hook_consistent initial).
  { split; [split; [discriminate|intros H; exfalso; exact (H eq_refl)]|reflexivity]. }
  revert H0. generalize initial as h.
  induction calls as [|c calls IH]; intros h H; cbn [fold_left].
  - exact H.
  - apply IH, hook_step_consistent, H.
Qed.

End HookFacts.

(** ** [generateUUID] *)

Module UuidFacts.
Import QArith Uuid.

Lemma bitor0_digit : forall q, (0 <= q < 1)%Q -> (0 <= bitor0 (q * 16) < 16)%Z.
Proof.
  intros [n d] [H0 H1]. unfold Qle, Qlt in H0, H1. cbn [Qnum Qden] in H0, H1.
  unfold bitor0, to_int32. cbn [Qnum Qden Qmult]. rewrite Pos.mul_1_r.
  assert (Hq : (0 <= Z.quot (n * 16) (Z.pos d) < 16)%Z).
  { rewrite Z.quot_div_nonneg by lia. split.
    - apply Z.div_pos; lia.
    - apply Z.div_lt_upper_bound; lia. }
  rewrite Z.mod_small by lia. lia.
Qed.

Lemma digit_cases : forall r, (0 <= r < 16)%Z ->
  r = 0%Z \/ r = 1%Z \/ r = 2%Z \/ r = 3%Z \/ r = 4%Z \/ r = 5%Z \/ r = 6%Z \/ r = 7%Z \/
  r = 8%Z \/ r = 9%Z \/ r = 10%Z \/ r = 11%Z \/ r = 12%Z \/ r = 13%Z \/ r = 14%Z \/ r = 15%Z.
Proof. intros r H. lia. Qed.

Lemma to_hex_string_digit : forall r, (0 <= r < 16)%Z ->
  exists c, to_hex_string r = String c EmptyString /\ is_lower_hex c = true.
Proof.
  intros r H.
  pose proof (digit_cases r H) as C.
  repeat (destruct C as [E|C]; [subst r; eexists; split; reflexivity|]).
  subst r; eexists; split; reflexivity.
Qed.

Lemma to_hex_string_variant : forall r, (0 <= r < 16)%Z ->
  exists c, to_hex_string (Z.lor (Z.land r 3) 8) = String c EmptyString /\
            is_variant_char c = true.
Proof.
  intros r H.
  pose proof (digit_cases r H) as C.
  repeat (destruct C as [E|C]; [subst r; eexists; split; reflexivity|]).
  subst r; eexists; split; reflexivity.
Qed.

Lemma replace_xy_matches : forall random, (forall i, 0 <= random i < 1)%Q ->
  forall tpl i, matches_template tpl (replace_xy tpl random i) = true.
Proof.
  intros random Hr tpl. induction tpl as [|c rest IH]; intros i; [reflexivity|].
  cbn [replace_xy].
  pose proof (bitor0_digit (random i) (Hr i)) as Hd.
  destruct (Ascii.eqb c "x") eqn:Ex; cbn [orb].
  - destruct (to_hex_string_digit _ Hd) as (c' & Hs & Hh). rewrite Hs.
    cbn [append matches_template]. rewrite Ex, Hh, IH. reflexivity.
  - destruct (Ascii.eqb c "y") eqn:Ey.
    + destruct (to_hex_string_variant _ Hd) as (c' & Hs & Hh). rewrite Hs.
      cbn [append matches_template]. rewrite Ex, Ey, Hh, IH. reflexivity.
    + cbn [matches_template]. rewrite Ex, Ey, Ascii.eqb_refl, IH. reflexivity.
Qed.

(** X15: whenever [Math.random()] returns numbers in [[0, 1)],
    [generateUUID()] yields a string of the version-4 UUID shape
    [xxxxxxxx-xxxx-4xxx-yxxx-xxxxxxxxxxxx]: lowercase hexadecimal digits
    in the [x] places, one of [8], [9], [a], [b] in the [y] place, and the
    dashes and the [4] kept. *)
Theorem generateUUID_shape : forall random, (forall i, 0 <= random i < 1)%Q ->
  matches_template uuid_template (generateUUID random) = true.
Proof. intros random Hr. apply replace_xy_matches, Hr. Qed.

Lemma generateUUID_shape_witness :
  (forall i, 0 <= Qmake (Z.of_nat (i mod 16)) 16 < 1)%Q /\
  generateUUID (fun i => Qmake (Z.of_nat (i mod 16)) 16) =
    "01234567-89ab-4cde-b012-3456789abcde" /\
  matches_template uuid_template (generateUUID (fun i => Qmake (Z.of_nat (i mod 16)) 16))
    = true.
Proof.
  assert (Hr : (forall i, 0 <= Qmake (Z.of_nat (i mod 16)) 16 < 1)%Q).
  { intros i. unfold Qle, Qlt. cbn [Qnum Qden].
    pose proof (Nat.mod_upper_bound i 16). lia. }
  split; [exact Hr|]. split; [vm_compute; reflexivity|].
  apply (generateUUID_shape (fun i => Qmake (Z.of_nat (i mod 16)) 16)), Hr.
Defined.

End UuidFacts.
